(** * server.js: the daily to-do document server

    A shallow embedding of [server.js] (an Express application that keeps one
    JSON document per calendar day in a Google Drive folder and sends e-mail
    reminders), together with the runtime pieces its handlers call:
    string operations, [JSON.stringify]/[JSON.parse], [dayjs().format], the
    Drive [files] API and the mail transport. *)

From Stdlib Require Import ZArith List String Ascii Bool Lia.
From Stdlib Require Import DecimalString DecimalZ.
Import ListNotations.

Local Open Scope string_scope.
Local Open Scope Z_scope.

(** ** JavaScript strings and numbers *)

Module JS.

(** [String.prototype.toLowerCase], on the ASCII range: the letters [A]-[Z]
    move to [a]-[z], every other code unit is kept. *)
Definition lower_ascii (c : ascii) : ascii :=
  let n := nat_of_ascii c in
  if (Nat.leb 65 n && Nat.leb n 90)%bool then ascii_of_nat (n + 32) else c.

Fixpoint toLowerCase (s : string) : string :=
  match s with
  | EmptyString => EmptyString
  | String c s' => String (lower_ascii c) (toLowerCase s')
  end.

(** [String(n)] for an integer [n]: plain decimal digits, with a leading
    minus sign below zero. *)
Definition Number_toString (n : Z) : string :=
  NilZero.string_of_int (Z.to_int n).

(** [pad.repeat(k)] *)
Fixpoint repeat_string (pad : string) (k : nat) : string :=
  match k with
  | O => EmptyString
  | S k' => pad ++ repeat_string pad k'
  end.

(** [s.slice(0, k)] *)
Definition slice_to (k : nat) (s : string) : string := String.substring 0 k s.

(** [s.slice(-k)] *)
Definition slice_last (k : nat) (s : string) : string :=
  String.substring (String.length s - k) k s.

(** *** JSON values

    The values [JSON.parse] builds and [JSON.stringify] prints.  Numbers are
    the integers (printed in plain decimal, as JavaScript prints every
    integer below 1e21); a string is its sequence of code units, here below
    256; an object is the list of its members in property order. *)
#[local] Unset Elimination Schemes.
Inductive json : Type :=
| JNull
| JBool (b : bool)
| JNum (n : Z)
| JStr (s : string)
| JArr (elements : list json)
| JObj (members : list (string * json)).
#[local] Set Elimination Schemes.

Definition LF : ascii := "010"%char.
Definition DQUOTE : ascii := "034"%char.
Definition BACKSLASH : ascii := "092"%char.

Definition str1 (c : ascii) : string := String c EmptyString.

(** One lower-case hexadecimal digit. *)
Definition hex_digit (n : nat) : ascii :=
  if Nat.ltb n 10 then ascii_of_nat (48 + n) else ascii_of_nat (87 + n).

(** The escape of a code unit below 0x20 that has no short form:
    [\u00XX]. *)
Definition unicode_escape (c : ascii) : string :=
  let n := nat_of_ascii c in
  String BACKSLASH
    (String "u" (String "0" (String "0"
       (String (hex_digit (Nat.div n 16))
          (String (hex_digit (Nat.modulo n 16)) EmptyString))))).

(** [QuoteJSONString], one code unit. *)
Definition quote_char (c : ascii) : string :=
  let n := nat_of_ascii c in
  if Nat.eqb n 8 then String BACKSLASH "b"
  else if Nat.eqb n 9 then String BACKSLASH "t"
  else if Nat.eqb n 10 then String BACKSLASH "n"
  else if Nat.eqb n 12 then String BACKSLASH "f"
  else if Nat.eqb n 13 then String BACKSLASH "r"
  else if Nat.eqb n 34 then String BACKSLASH (str1 DQUOTE)
  else if Nat.eqb n 92 then String BACKSLASH (str1 BACKSLASH)
  else if Nat.ltb n 32 then unicode_escape c
  else str1 c.

Fixpoint quote_chars (s : string) : string :=
  match s with
  | EmptyString => EmptyString
  | String c s' => quote_char c ++ quote_chars s'
  end.

(** [QuoteJSONString] *)
Definition QuoteJSONString (s : string) : string :=
  String DQUOTE (quote_chars s ++ str1 DQUOTE).

(** [parts.join(sep)] *)
Fixpoint join (sep : string) (parts : list string) : string :=
  match parts with
  | [] => EmptyString
  | [p] => p
  | p :: rest => p ++ sep ++ join sep rest
  end.

(** The line break [JSON.stringify] puts before an item at indentation
    [indent]; nothing when there is no gap. *)
Definition newline (gap indent : string) : string :=
  if String.eqb gap "" then "" else String LF indent.

(** [SerializeJSONProperty] with [SerializeJSONArray] and
    [SerializeJSONObject], at the current indentation. *)
Fixpoint serialize (gap indent : string) (v : json) : string :=
  match v with
  | JNull => "null"
  | JBool true => "true"
  | JBool false => "false"
  | JNum n => Number_toString n
  | JStr s => QuoteJSONString s
  | JArr [] => "[]"
  | JArr elements =>
    let stepback := indent in
    let indent := indent ++ gap in
    let partial := map (serialize gap indent) elements in
    "[" ++ newline gap indent
        ++ join ("," ++ newline gap indent) partial
        ++ newline gap stepback ++ "]"
  | JObj [] => "{}"
  | JObj members =>
    let stepback := indent in
    let indent := indent ++ gap in
    let partial :=
      map (fun kv =>
             QuoteJSONString (fst kv) ++ ":"
               ++ (if String.eqb gap "" then "" else " ")
               ++ serialize gap indent (snd kv)) members in
    "{" ++ newline gap indent
        ++ join ("," ++ newline gap indent) partial
        ++ newline gap stepback ++ "}"
  end.

(** [JSON.stringify(value, null, space)] for a number [space]: the gap is
    [min(10, space)] spaces. *)
Definition JSON_stringify (value : json) (space : nat) : string :=
  serialize (repeat_string " " (Nat.min 10 space)) "" value.

(** *** JSON.parse *)

Definition is_ws (c : ascii) : bool :=
  let n := nat_of_ascii c in
  (Nat.eqb n 9 || Nat.eqb n 10 || Nat.eqb n 13 || Nat.eqb n 32)%bool.

Definition is_digit (c : ascii) : bool :=
  let n := nat_of_ascii c in (Nat.leb 48 n && Nat.leb n 57)%bool.

Fixpoint skip_ws (s : string) : string :=
  match s with
  | String c s' => if is_ws c then skip_ws s' else s
  | EmptyString => s
  end.

(** The value of one hexadecimal digit. *)
Definition hex_value (c : ascii) : option nat :=
  let n := nat_of_ascii c in
  if (Nat.leb 48 n && Nat.leb n 57)%bool then Some (n - 48)%nat
  else if (Nat.leb 97 n && Nat.leb n 102)%bool then Some (n - 87)%nat
  else if (Nat.leb 65 n && Nat.leb n 70)%bool then Some (n - 55)%nat
  else None.

(** The character a short escape stands for. *)
Definition unescape (e : ascii) : option ascii :=
  if Ascii.eqb e "b" then Some (ascii_of_nat 8)
  else if Ascii.eqb e "t" then Some (ascii_of_nat 9)
  else if Ascii.eqb e "n" then Some (ascii_of_nat 10)
  else if Ascii.eqb e "f" then Some (ascii_of_nat 12)
  else if Ascii.eqb e "r" then Some (ascii_of_nat 13)
  else if Ascii.eqb e DQUOTE then Some DQUOTE
  else if Ascii.eqb e BACKSLASH then Some BACKSLASH
  else if Ascii.eqb e "/" then Some "/"%char
  else None.

Definition cons_char (c : ascii) (r : option (string * string))
  : option (string * string) :=
  match r with
  | Some (s, rest) => Some (String c s, rest)
  | None => None
  end.

(** The characters of a string literal after its opening quote, up to the
    closing one. *)
Fixpoint parse_chars (s : string) : option (string * string) :=
  match s with
  | EmptyString => None
  | String c s' =>
    if Ascii.eqb c DQUOTE then Some (EmptyString, s')
    else if Ascii.eqb c BACKSLASH then
      match s' with
      | String e s'' =>
        if Ascii.eqb e "u" then
          match s'' with
          | String h1 (String h2 (String h3 (String h4 r))) =>
            match hex_value h1, hex_value h2, hex_value h3, hex_value h4 with
            | Some O, Some O, Some a, Some b =>
              cons_char (ascii_of_nat (a * 16 + b)) (parse_chars r)
            | _, _, _, _ => None
            end
          | _ => None
          end
        else
          match unescape e with
          | Some c' => cons_char c' (parse_chars s'')
          | None => None
          end
      | EmptyString => None
      end
    else if Nat.ltb (nat_of_ascii c) 32 then None
    else cons_char c (parse_chars s')
  end.

(** The longest prefix of digits, and what follows it. *)
Fixpoint span_digits (s : string) : string * string :=
  match s with
  | String c s' =>
    if is_digit c then let '(ds, rest) := span_digits s' in (String c ds, rest)
    else (EmptyString, s)
  | EmptyString => (EmptyString, s)
  end.

(** An unsigned integer literal: [0], or digits that do not start
    with [0]. *)
Definition parse_uint (s : string) : option (Z * string) :=
  let '(ds, rest) := span_digits s in
  match ds with
  | EmptyString => None
  | String "0" (String _ _) => None
  | _ =>
    match NilEmpty.uint_of_string ds with
    | Some d => Some (Z.of_uint d, rest)
    | None => None
    end
  end.

Definition parse_number (s : string) : option (Z * string) :=
  match s with
  | String "-" s' =>
    match parse_uint s' with
    | Some (n, rest) => Some (- n, rest)
    | None => None
    end
  | _ => parse_uint s
  end.

(** [s] starts with [lit]: what follows it. *)
Fixpoint expect (lit s : string) : option string :=
  match lit, s with
  | EmptyString, _ => Some s
  | String a lit', String b s' => if Ascii.eqb a b then expect lit' s' else None
  | String _ _, EmptyString => None
  end.

(** A JSON value at the head of [s], after white space; [fuel] bounds the
    number of values, elements and members read. *)
Fixpoint parse_value (fuel : nat) (s : string) : option (json * string) :=
  match fuel with
  | O => None
  | S fuel' =>
    match skip_ws s with
    | EmptyString => None
    | String c r =>
      if Ascii.eqb c "n" then option_map (pair JNull) (expect "ull" r)
      else if Ascii.eqb c "t" then option_map (pair (JBool true)) (expect "rue" r)
      else if Ascii.eqb c "f" then option_map (pair (JBool false)) (expect "alse" r)
      else if Ascii.eqb c DQUOTE then
        match parse_chars r with
        | Some (str, rest) => Some (JStr str, rest)
        | None => None
        end
      else if Ascii.eqb c "[" then
        match skip_ws r with
        | String "]" rest => Some (JArr [], rest)
        | _ =>
          match parse_elements fuel' r with
          | Some (l, rest) => Some (JArr l, rest)
          | None => None
          end
        end
      else if Ascii.eqb c "{" then
        match skip_ws r with
        | String "}" rest => Some (JObj [], rest)
        | _ =>
          match parse_members fuel' r with
          | Some (l, rest) => Some (JObj l, rest)
          | None => None
          end
        end
      else
        match parse_number (String c r) with
        | Some (n, rest) => Some (JNum n, rest)
        | None => None
        end
    end
  end

with parse_elements (fuel : nat) (s : string)
  : option (list json * string) :=
  match fuel with
  | O => None
  | S fuel' =>
    match parse_value fuel' s with
    | Some (v, rest) =>
      match skip_ws rest with
      | String "," rest' =>
        match parse_elements fuel' rest' with
        | Some (l, rest'') => Some (v :: l, rest'')
        | None => None
        end
      | String "]" rest' => Some ([v], rest')
      | _ => None
      end
    | None => None
    end
  end

with parse_members (fuel : nat) (s : string)
  : option (list (string * json) * string) :=
  match fuel with
  | O => None
  | S fuel' =>
    match skip_ws s with
    | String c r =>
      if Ascii.eqb c DQUOTE then
        match parse_chars r with
        | Some (k, rest) =>
          match skip_ws rest with
          | String ":" rest' =>
            match parse_value fuel' rest' with
            | Some (v, rest'') =>
              match skip_ws rest'' with
              | String "," rest3 =>
                match parse_members fuel' rest3 with
                | Some (l, rest4) => Some ((k, v) :: l, rest4)
                | None => None
                end
              | String "}" rest3 => Some ([(k, v)], rest3)
              | _ => None
              end
            | None => None
            end
          | _ => None
          end
        | None => None
        end
      else None
    | EmptyString => None
    end
  end.

(** [JSON.parse(text)]: one value, then only white space; [None] is the
    [SyntaxError]. *)
Definition JSON_parse (text : string) : option json :=
  match parse_value (S (String.length text)) text with
  | Some (v, rest) =>
    match skip_ws rest with
    | EmptyString => Some v
    | _ => None
    end
  | None => None
  end.


(** *** Measures and classes of text the facts about [JSON.parse] use *)





(** *** Property access, template literals, exceptions *)

(** [value.name]; [None] is [undefined].  Of members written twice the last
    one counts. *)
Fixpoint lookup_member (name : string) (members : list (string * json))
  : option json :=
  match members with
  | [] => None
  | (k, v) :: rest =>
    match lookup_member name rest with
    | Some v' => Some v'
    | None => if String.eqb k name then Some v else None
    end
  end.

Definition get_prop (value : json) (name : string) : option json :=
  match value with
  | JObj members => lookup_member name members
  | _ => None
  end.

(** [ToString] of a JSON value, as a template literal applies it. *)
Fixpoint ToString_json (v : json) : string :=
  match v with
  | JNull => "null"
  | JBool true => "true"
  | JBool false => "false"
  | JNum n => Number_toString n
  | JStr s => s
  | JArr elements =>
    join ","
      (map (fun e => match e with JNull => "" | _ => ToString_json e end)
           elements)
  | JObj _ => "[object Object]"
  end.

(** [`${value}`] *)
Definition ToString (value : option json) : string :=
  match value with
  | Some v => ToString_json v
  | None => "undefined"
  end.

(** A thrown value. *)
Record error : Type := mkError { error_name : string; message : string }.

(** How an awaited promise settles: rejected with an error, or fulfilled
    with a value. *)
Definition settled (A : Type) : Type := (error + A)%type.

(** Reading a property of [undefined]. *)
Definition TypeError_undefined (prop : string) : error :=
  mkError "TypeError"
    ("Cannot read properties of undefined (reading '" ++ prop ++ "')").

End JS.

(** ** dayjs: the wall clock and its formatting *)

Module Dayjs.

(** A reading of the wall clock: milliseconds since the epoch, and the offset
    of local time from UTC in minutes at that instant. *)
Record clock : Type := mkClock { epoch_ms : Z; offset_min : Z }.

(** The local calendar day of a clock reading, counted in days from
    1970-01-01. *)
Definition local_day (c : clock) : Z :=
  (epoch_ms c + offset_min c * 60000) / 86400000.

(** The fields a dayjs instance keeps: [$y], [$M] (0-11), [$D] (1-31),
    [$W] (0 = Sunday) and the UTC offset. *)
Record t : Type := mk { y_ : Z; M_ : Z; D_ : Z; W_ : Z; utcOffset : Z }.

(** Year, month (0-11) and day of month of a day number, in the proleptic
    Gregorian calendar. *)
Definition civil (z : Z) : Z * Z * Z :=
  let z := z + 719468 in
  let era := z / 146097 in
  let doe := z - era * 146097 in
  let yoe := (doe - doe / 1460 + doe / 36524 - doe / 146096) / 365 in
  let doy := doe - (365 * yoe + yoe / 4 - yoe / 100) in
  let mp := (5 * doy + 2) / 153 in
  let d := doy - (153 * mp + 2) / 5 + 1 in
  let m := if mp <? 10 then mp + 3 else mp - 9 in
  let y := yoe + era * 400 + (if m <=? 2 then 1 else 0) in
  (y, m - 1, d).

(** Day of the week of a day number; 1970-01-01 was a Thursday. *)
Definition weekday (z : Z) : Z := (z + 4) mod 7.

(** [dayjs()] *)
Definition dayjs (c : clock) : t :=
  let z := local_day c in
  let '(y, m, d) := civil z in
  mk y m d (weekday z) (offset_min c).

(** The English locale. *)
Definition weekdays : list string :=
  ["Sunday"; "Monday"; "Tuesday"; "Wednesday"; "Thursday"; "Friday";
   "Saturday"].

Definition months : list string :=
  ["January"; "February"; "March"; "April"; "May"; "June"; "July"; "August";
   "September"; "October"; "November"; "December"].

(** [Utils.s]: pad on the left up to [len] characters. *)
Definition padStart (s : string) (len : nat) (pad : string) : string :=
  if Nat.leb len (String.length s) then s
  else JS.repeat_string pad (len - String.length s) ++ s.

(** [Utils.z]: the zone as [+hh:mm]. *)
Definition padZoneStr (d : t) : string :=
  let negMinutes := - utcOffset d in
  let minutes := Z.abs negMinutes in
  let hourOffset := minutes / 60 in
  let minuteOffset := minutes mod 60 in
  (if negMinutes <=? 0 then "+" else "-")
    ++ padStart (JS.Number_toString hourOffset) 2 "0"
    ++ ":" ++ padStart (JS.Number_toString minuteOffset) 2 "0".

(** [getShort] with the English locale, which has no short tables: the first
    [len] characters of the full name. *)
Definition getShort (full : list string) (index : Z) (len : nat) : string :=
  JS.slice_to len (nth (Z.to_nat index) full "").

(** The replacement of one matched run of a format letter; [None] is the
    [null] of the [switch]'s fall-through. *)
Definition matches (d : t) (letter : ascii) (n : nat) : option string :=
  if Ascii.eqb letter "Y" then
    match n with
    | 2%nat => Some (JS.slice_last 2 (JS.Number_toString (y_ d)))
    | 4%nat => Some (padStart (JS.Number_toString (y_ d)) 4 "0")
    | _ => None
    end
  else if Ascii.eqb letter "M" then
    match n with
    | 1%nat => Some (JS.Number_toString (M_ d + 1))
    | 2%nat => Some (padStart (JS.Number_toString (M_ d + 1)) 2 "0")
    | 3%nat => Some (getShort months (M_ d) 3)
    | 4%nat => Some (nth (Z.to_nat (M_ d)) months "")
    | _ => None
    end
  else if Ascii.eqb letter "D" then
    match n with
    | 1%nat => Some (JS.Number_toString (D_ d))
    | 2%nat => Some (padStart (JS.Number_toString (D_ d)) 2 "0")
    | _ => None
    end
  else if Ascii.eqb letter "d" then
    match n with
    | 1%nat => Some (JS.Number_toString (W_ d))
    | 2%nat => Some (getShort weekdays (W_ d) 2)
    | 3%nat => Some (getShort weekdays (W_ d) 3)
    | 4%nat => Some (nth (Z.to_nat (W_ d)) weekdays "")
    | _ => None
    end
  else None.

(** The longest run the format expression takes of a letter: [Y{1,4}],
    [M{1,4}], [D{1,2}], [d{1,4}]; [0] for a character that is no date
    letter. *)
Definition max_run (c : ascii) : nat :=
  if Ascii.eqb c "Y" then 4
  else if Ascii.eqb c "M" then 4
  else if Ascii.eqb c "D" then 2
  else if Ascii.eqb c "d" then 4
  else 0.

Definition zone_fallback (d : t) : string :=
  let z := padZoneStr d in
  JS.slice_to 3 z ++ JS.slice_last 2 z.

(** What one finished run is replaced with: [matches(match) || zoneStr
    .replace(':', '')], and a character outside the date letters stays. *)
Definition emit (d : t) (c : ascii) (n : nat) : string :=
  match max_run c with
  | O => JS.repeat_string (String c EmptyString) n
  | _ =>
    match matches d c n with
    | Some s => if String.eqb s "" then zone_fallback d else s
    | None => zone_fallback d
    end
  end.

(** The scan of [str.replace(REGEX_FORMAT, ...)] restricted to the date
    letters: [cur] is the run being read, [n] its length so far. *)
Fixpoint scan (d : t) (cur : ascii) (n : nat) (s : string) : string :=
  match s with
  | EmptyString => emit d cur n
  | String c s' =>
    if (Ascii.eqb c cur && Nat.ltb n (max_run cur))%bool
    then scan d cur (S n) s'
    else emit d cur n ++ scan d c 1 s'
  end.

(** [format(formatStr)] for a format, not empty, made of the date letters
    [Y M D d] and of characters that stand for themselves. *)
Definition format (d : t) (formatStr : string) : string :=
  match formatStr with
  | EmptyString => EmptyString
  | String c s' => scan d c 1 s'
  end.

End Dayjs.

(** ** The Drive [files] API *)

Module Drive.

(** File identifiers are issued by the store and opaque to its clients. *)
Definition file_id : Type := nat.

Record file : Type := mkFile {
  id : file_id;
  name : string;
  parents : list string;
  mimeType : string;
  content : string
}.

(** The store: its files in the order a listing returns them, and the access
    tokens it accepts. *)
Record store : Type := mkStore { contents : list file; tokens : list string }.

(** The [resource] and [media] arguments of a request. *)
Record metadata : Type := mkMetadata {
  md_name : string;
  md_parents : list string;
  md_mimeType : string
}.

Record media : Type := mkMedia { media_mimeType : string; media_body : string }.

(** What a listing with [fields: "files(id, name)"] holds of each file. *)
Record handle : Type := mkHandle { h_id : file_id; h_name : string }.

Record file_list : Type := mkFileList { files : list handle }.

(** A response of the client library: [{ data }]. *)
Record response (A : Type) : Type := mkResponse { data : A }.
Arguments mkResponse {A} _.
Arguments data {A} _.

(** A string literal of the query language after its opening quote: up to
    the closing quote, a backslash escaping the next character. *)
Fixpoint read_quoted (s : string) : option (string * string) :=
  match s with
  | EmptyString => None
  | String c s' =>
    if Ascii.eqb c "'" then Some (EmptyString, s')
    else if Ascii.eqb c JS.BACKSLASH then
      match s' with
      | String e s'' => JS.cons_char e (read_quoted s'')
      | EmptyString => None
      end
    else JS.cons_char c (read_quoted s')
  end.

(** The queries of the form [name='N' and 'P' in parents]: the name and the
    parent asked for. *)
Definition parse_query (q : string) : option (string * string) :=
  match JS.expect "name='" q with
  | Some r1 =>
    match read_quoted r1 with
    | Some (n, r2) =>
      match JS.expect " and '" r2 with
      | Some r3 =>
        match read_quoted r3 with
        | Some (p, r4) =>
          if String.eqb r4 " in parents" then Some (n, p) else None
        | None => None
        end
      | None => None
      end
    | None => None
    end
  | None => None
  end.

(** A string with no quote and no backslash: one that the query language
    reads back as it is written between quotes. *)
Fixpoint plain (s : string) : bool :=
  match s with
  | EmptyString => true
  | String c s' =>
    (negb (Ascii.eqb c "'") && negb (Ascii.eqb c JS.BACKSLASH) && plain s')%bool
  end.

Definition authorized (st : store) (access_token : string) : bool :=
  existsb (String.eqb access_token) (tokens st).

Definition invalid_credentials : JS.error :=
  JS.mkError "GaxiosError" "Invalid Credentials".

Definition invalid_query : JS.error :=
  JS.mkError "GaxiosError" "Invalid Value".

Definition file_not_found : JS.error :=
  JS.mkError "GaxiosError" "File not found".

Definition matches_query (n p : string) (f : file) : bool :=
  (String.eqb (name f) n && existsb (String.eqb p) (parents f))%bool.

Definition handle_of (f : file) : handle := mkHandle (id f) (name f).

(** [files.list({ q, fields })] *)
Definition list (st : store) (access_token q : string)
  : JS.settled (response file_list) :=
  if authorized st access_token then
    match parse_query q with
    | Some (n, p) =>
      inr (mkResponse
             (mkFileList (map handle_of (filter (matches_query n p) (contents st)))))
    | None => inl invalid_query
    end
  else inl invalid_credentials.

Definition find_file (fileId : file_id) (l : Datatypes.list file) : option file :=
  find (fun f => Nat.eqb (id f) fileId) l.

(** What the client library makes of a downloaded body: JSON when the
    content type says so and the text parses, the text itself otherwise. *)
Definition decode (content_type text : string) : JS.json :=
  if String.eqb content_type "application/json" then
    match JS.JSON_parse text with
    | Some v => v
    | None => JS.JStr text
    end
  else JS.JStr text.

Definition describe (f : file) : JS.json :=
  JS.JObj [("kind", JS.JStr "drive#file");
           ("id", JS.JNum (Z.of_nat (id f)));
           ("name", JS.JStr (name f));
           ("mimeType", JS.JStr (mimeType f))].

(** [files.get({ fileId, alt })]: the content with [alt: "media"], the
    description of the file otherwise. *)
Definition get (st : store) (access_token : string) (fileId : file_id)
  (alt : string) : JS.settled (response JS.json) :=
  if authorized st access_token then
    match find_file fileId (contents st) with
    | Some f =>
      if String.eqb alt "media"
      then inr (mkResponse (decode (mimeType f) (content f)))
      else inr (mkResponse (describe f))
    | None => inl file_not_found
    end
  else inl invalid_credentials.

(** A new revision: the uploaded body and its type replace the old ones of
    the first file with that identifier. *)
Fixpoint upload (fileId : file_id) (m : media) (l : Datatypes.list file)
  : Datatypes.list file :=
  match l with
  | [] => []
  | f :: rest =>
    if Nat.eqb (id f) fileId
    then mkFile (id f) (name f) (parents f) (media_mimeType m) (media_body m)
           :: rest
    else f :: upload fileId m rest
  end.

(** [files.update({ fileId, media })] *)
Definition update (st : store) (access_token : string) (fileId : file_id)
  (m : media) : JS.settled (response unit) * store :=
  if authorized st access_token then
    match find_file fileId (contents st) with
    | Some _ =>
      (inr (mkResponse tt), mkStore (upload fileId m (contents st)) (tokens st))
    | None => (inl file_not_found, st)
    end
  else (inl invalid_credentials, st).

(** An identifier no file of the store has. *)
Definition fresh_id (l : Datatypes.list file) : file_id :=
  S (fold_right (fun f m => Nat.max (id f) m) O l).

(** [files.create({ resource, media })]: the new file comes last. *)
Definition create (st : store) (access_token : string) (resource : metadata)
  (m : media) : JS.settled (response unit) * store :=
  if authorized st access_token then
    (inr (mkResponse tt),
     mkStore
       (contents st
          ++ [mkFile (fresh_id (contents st)) (md_name resource)
                (md_parents resource) (md_mimeType resource) (media_body m)])
       (tokens st))
  else (inl invalid_credentials, st).

End Drive.

(** ** The mail transport *)

Module Mail.

Record options : Type := mkOptions {
  from : string;
  to : string;
  subject : string;
  html : string
}.

(** What the transport reports of an accepted message. *)
Record info : Type := mkInfo { response : string }.

End Mail.

(** ** server.js *)

Module Server.

Import JS.

(** [process.env] *)
Record environment : Type := mkEnv {
  EMAIL_USER : string;
  CLIENT_URL : string;
  GOOGLE_DRIVE_FOLDER_ID : string
}.

(** The profile passport keeps in the session. *)
Record email : Type := mkEmail { value : string }.

Record user : Type := mkUser {
  displayName : string;
  emails : list email;
  accessToken : string;
  refreshToken : string
}.

Inductive method : Type := GET | POST.

(** A request as the handlers see it: [req.user] is set when the session
    holds a user, [req.body] is what [bodyParser.json()] parsed. *)
Record request : Type := mkRequest {
  req_method : method;
  req_path : string;
  req_user : option user;
  req_body : json
}.

Inductive payload : Type :=
| as_json (v : json)
| as_text (s : string).

Record response : Type := mkResponse { status : Z; sent : payload }.

(** [res.json(v)], [res.status(c).json(v)], [res.status(c).send(s)] *)
Definition res_json (v : json) : response := mkResponse 200 (as_json v).
Definition res_status_json (c : Z) (v : json) : response :=
  mkResponse c (as_json v).
Definition res_status_send (c : Z) (s : string) : response :=
  mkResponse c (as_text s).

(** The Drive client of a request: the credentials it sends. *)
Record drive_client : Type := mkDrive { access_token : string }.

(** *** What a handler does to the outside world *)

Inductive call : Type -> Type :=
| files_list (drive : drive_client) (q fields : string)
  : call (settled (Drive.response Drive.file_list))
| files_get (drive : drive_client) (fileId : Drive.file_id) (alt : string)
  : call (settled (Drive.response json))
| files_update (drive : drive_client) (fileId : Drive.file_id)
    (media : Drive.media)
  : call (settled (Drive.response unit))
| files_create (drive : drive_client) (resource : Drive.metadata)
    (media : Drive.media)
  : call (settled (Drive.response unit))
| sendMail (mailOptions : Mail.options) : call (settled Mail.info)
| console_log (line : string) : call unit
| console_error (line : string) (err : error) : call unit.

(** An asynchronous computation: it returns, throws, or makes a call and
    goes on with the answer. *)
Inductive prog (A : Type) : Type :=
| Ret (a : A)
| Throw (e : error)
| Vis {X : Type} (c : call X) (k : X -> prog A).
Arguments Ret {A} _.
Arguments Throw {A} _.
Arguments Vis {A X} _ _.

Fixpoint bind {A B : Type} (p : prog A) (f : A -> prog B) : prog B :=
  match p with
  | Ret a => f a
  | Throw e => Throw e
  | Vis c k => Vis c (fun x => bind (k x) f)
  end.

Notation "x <- p ;; q" := (bind p (fun x => q))
  (at level 61, p at next level, right associativity).
Notation "p ;; q" := (bind p (fun _ => q))
  (at level 61, right associativity).

(** A call whose answer is not a promise. *)
Definition perform {X : Type} (c : call X) : prog X := Vis c Ret.

(** [await promise]: the value, or the rejection thrown. *)
Definition await {X : Type} (c : call (settled X)) : prog X :=
  Vis c (fun r => match r with inl e => Throw e | inr x => Ret x end).

(** [try { p } catch (err) { handler }] *)
Fixpoint try_catch {A : Type} (p : prog A) (handler : error -> prog A)
  : prog A :=
  match p with
  | Ret a => Ret a
  | Throw e => handler e
  | Vis c k => Vis c (fun x => try_catch (k x) handler)
  end.

(** [object.prop] of a value that may be [undefined]. *)
Definition prop_of {A B : Type} (object : option A) (prop : string)
  (read : A -> B) : prog B :=
  match object with
  | Some o => Ret (read o)
  | None => Throw (TypeError_undefined prop)
  end.

(** [array[0]] *)
Definition first {A : Type} (array : list A) : option A := hd_error array.

Section Handlers.

Variable env : environment.

(** [sendTaskReminder] *)
Definition sendTaskReminder
  (userEmail userName taskName dueDate priority taskLink : string)
  : prog bool :=
  let mailOptions :=
    Mail.mkOptions
      (str1 DQUOTE ++ "Task Reminder" ++ str1 DQUOTE ++ " <" ++ EMAIL_USER env
         ++ ">")
      userEmail
      ("â³ Reminder: Upcoming Task - " ++ taskName)
      ("
      <p>Hello <strong>"
      ++ userName
      ++ "</strong>,</p>
      <p>This is a reminder about your upcoming task:</p>
      <ul>
        <li>ğŸ“Œ <strong>Task:</strong> "
      ++ taskName
      ++ "</li>
        <li>ğŸ“… <strong>Due Date:</strong> "
      ++ dueDate
      ++ "</li>
        <li>ğŸ“ <strong>Priority:</strong> "
      ++ priority
      ++ "</li>
      </ul>
      <p>ğŸ”— <a href="
      ++ str1 DQUOTE
      ++ taskLink
      ++ str1 DQUOTE
      ++ " target="
      ++ str1 DQUOTE
      ++ "_blank"
      ++ str1 DQUOTE
      ++ ">View Task</a></p>
      <p>Don't forget to complete it on time!</p>
      <p>Best,<br>ğŸš€ <strong>Your To-Do App Team</strong></p>
    ") in
  try_catch
    (info <- await (sendMail mailOptions) ;;
     perform (console_log ("Email sent: " ++ Mail.response info)) ;;
     Ret true)
    (fun error =>
       perform (console_error "Error sending email:" error) ;;
       Ret false).

(** [isAuthenticated]: [req.isAuthenticated()] holds when the request has a
    user. *)
Definition req_isAuthenticated (req : request) : bool :=
  match req_user req with Some _ => true | None => false end.

Definition not_authenticated : response :=
  res_status_json 401 (JObj [("error", JStr "Not authenticated")]).

Definition isAuthenticated (req : request) (next : prog response)
  : prog response :=
  if req_isAuthenticated req then next else Ret not_authenticated.

(** [getDriveClient] *)
Definition getDriveClient (accessToken : string) : drive_client :=
  mkDrive accessToken.

(** [dayjs().format("dddDDMMM").toLowerCase() + ".json"] *)
Definition dateString (now : Dayjs.clock) : string :=
  toLowerCase (Dayjs.format (Dayjs.dayjs now) "dddDDMMM") ++ ".json".

(** [`name='${dateString}' and '${process.env.GOOGLE_DRIVE_FOLDER_ID}' in
    parents`] *)
Definition query (dateString : string) : string :=
  "name='" ++ dateString ++ "' and '" ++ GOOGLE_DRIVE_FOLDER_ID env
    ++ "' in parents".

(** The handler of [GET /api/todos] *)
Definition get_todos (now : Dayjs.clock) (req : request) : prog response :=
  try_catch
    (accessToken <- prop_of (req_user req) "accessToken" accessToken ;;
     let drive := getDriveClient accessToken in
     let dateString := dateString now in
     fileList <- await (files_list drive (query dateString) "files(id, name)") ;;
     match Drive.files (Drive.data fileList) with
     | [] => Ret (res_json (JArr []))
     | file0 :: _ =>
       let fileId := Drive.h_id file0 in
       fileRes <- await (files_get drive fileId "media") ;;
       Ret (res_json (Drive.data fileRes))
     end)
    (fun err =>
       perform (console_error "Error fetching todos:" err) ;;
       Ret (res_status_send 500 "Error fetching todos")).

(** The handler of [POST /api/todos] *)
Definition post_todos (now : Dayjs.clock) (req : request) : prog response :=
  try_catch
    (accessToken <- prop_of (req_user req) "accessToken" accessToken ;;
     let drive := getDriveClient accessToken in
     let dateString := dateString now in
     fileList <- await (files_list drive (query dateString) "files(id, name)") ;;
     let fileMetadata :=
       Drive.mkMetadata dateString [GOOGLE_DRIVE_FOLDER_ID env]
         "application/json" in
     let media :=
       Drive.mkMedia "application/json" (JSON_stringify (req_body req) 2) in
     match Drive.files (Drive.data fileList) with
     | file0 :: _ =>
       await (files_update drive (Drive.h_id file0) media) ;;
       Ret (res_json (JObj [("success", JBool true)]))
     | [] =>
       await (files_create drive fileMetadata media) ;;
       Ret (res_json (JObj [("success", JBool true)]))
     end)
    (fun err =>
       perform (console_error "Error saving todos:" err) ;;
       Ret (res_status_send 500 "Error saving todos")).

(** The handler of [POST /api/send-reminder] *)
Definition post_send_reminder (req : request) : prog response :=
  let taskName := ToString (get_prop (req_body req) "taskName") in
  let dueDate := ToString (get_prop (req_body req) "dueDate") in
  let priority := ToString (get_prop (req_body req) "priority") in
  emails <- prop_of (req_user req) "emails" emails ;;
  userEmail <- prop_of (first emails) "value" value ;;
  userName <- prop_of (req_user req) "displayName" displayName ;;
  let taskLink :=
    CLIENT_URL env ++ "/task/" ++ ToString (get_prop (req_body req) "taskId") in
  try_catch
    (success <-
       sendTaskReminder userEmail userName taskName dueDate priority taskLink ;;
     if success : bool
     then Ret (res_json (JObj [("message", JStr "Reminder sent successfully")]))
     else Ret (res_status_json 500
                 (JObj [("error", JStr "Failed to send reminder")])))
    (fun error =>
       perform (console_error "Error sending reminder:" error) ;;
       Ret (res_status_json 500
              (JObj [("error", JStr "Failed to send reminder")]))).

(** The routes behind [isAuthenticated]; [None] for a request that is for
    none of them. *)
Definition route (now : Dayjs.clock) (req : request)
  : option (prog response) :=
  match req_method req with
  | GET =>
    if String.eqb (req_path req) "/api/todos"
    then Some (isAuthenticated req (get_todos now req))
    else None
  | POST =>
    if String.eqb (req_path req) "/api/todos"
    then Some (isAuthenticated req (post_todos now req))
    else if String.eqb (req_path req) "/api/send-reminder"
    then Some (isAuthenticated req (post_send_reminder req))
    else None
  end.

End Handlers.

(** *** Running a handler *)

(** One call made, with the answer it got. *)
Inductive event : Type :=
| Called {X : Type} (c : call X) (answer : X).

(** Whatever answers the calls: a state and the answer it gives to each. *)
Record oracle (W : Type) : Type := mkOracle {
  answer : forall X : Type, call X -> W -> X * W
}.
Arguments mkOracle {W} _.
Arguments answer {W} _ {X} _ _.

Inductive outcome (A : Type) : Type :=
| Returned (a : A)
| Thrown (e : error).
Arguments Returned {A} _.
Arguments Thrown {A} _.

(** The handler run against an oracle: how it ends, the state left, and the
    calls made in order. *)
Fixpoint run {W A : Type} (o : oracle W) (p : prog A) (w : W)
  : outcome A * W * list event :=
  match p with
  | Ret a => (Returned a, w, [])
  | Throw e => (Thrown e, w, [])
  | Vis c k =>
    let '(x, w1) := answer o c w in
    let '(out, w2, t) := run o (k x) w1 in
    (out, w2, Called c x :: t)
  end.

(** The calls of a trace that go to the remote store. *)
Definition is_store_call (ev : event) : bool :=
  match ev with
  | Called (files_list _ _ _) _ => true
  | Called (files_get _ _ _) _ => true
  | Called (files_update _ _ _) _ => true
  | Called (files_create _ _ _) _ => true
  | Called _ _ => false
  end.

Definition store_calls (t : list event) : list event :=
  filter is_store_call t.

(** The error of a store call that was rejected. *)
Definition store_failure (ev : event) : option error :=
  match ev with
  | Called (files_list _ _ _) (inl e) => Some e
  | Called (files_get _ _ _) (inl e) => Some e
  | Called (files_update _ _ _) (inl e) => Some e
  | Called (files_create _ _ _) (inl e) => Some e
  | Called _ _ => None
  end.

(** The media a trace uploads, in order. *)
Fixpoint uploads (t : list event) : list Drive.media :=
  match t with
  | [] => []
  | Called (files_update _ _ m) _ :: t' => m :: uploads t'
  | Called (files_create _ _ m) _ :: t' => m :: uploads t'
  | _ :: t' => uploads t'
  end.

(** The mails a trace hands to the transport, in order. *)
Fixpoint mails (t : list event) : list Mail.options :=
  match t with
  | [] => []
  | Called (sendMail m) _ :: t' => m :: mails t'
  | _ :: t' => mails t'
  end.

(** *** A world to run in

    The Drive store, a mail relay that takes every message while it is up,
    and the console. *)
Record world : Type := mkWorld {
  drive : Drive.store;
  relay_up : bool;
  outbox : list Mail.options;
  console : list string
}.

Definition relay_down : error := mkError "Error" "connect ECONNREFUSED".

Definition world_answer (X : Type) (c : call X) (w : world) : X * world :=
  match c in call X return X * world with
  | files_list d q _ => (Drive.list (drive w) (access_token d) q, w)
  | files_get d fileId alt =>
    (Drive.get (drive w) (access_token d) fileId alt, w)
  | files_update d fileId m =>
    let '(r, st) := Drive.update (drive w) (access_token d) fileId m in
    (r, mkWorld st (relay_up w) (outbox w) (console w))
  | files_create d resource m =>
    let '(r, st) := Drive.create (drive w) (access_token d) resource m in
    (r, mkWorld st (relay_up w) (outbox w) (console w))
  | sendMail m =>
    if relay_up w
    then (inr (Mail.mkInfo "250 2.0.0 OK"),
          mkWorld (drive w) (relay_up w) (outbox w ++ [m]) (console w))
    else (inl relay_down, w)
  | console_log line =>
    (tt, mkWorld (drive w) (relay_up w) (outbox w) (console w ++ [line]))
  | console_error line err =>
    (tt,
     mkWorld (drive w) (relay_up w) (outbox w)
       (console w ++ [line ++ " " ++ error_name err ++ ": " ++ message err]))
  end.

Definition the_world : oracle world := mkOracle world_answer.


(** *** Names for what the properties speak of *)

(** The listing both document handlers start with. *)
Definition listing (env : environment) (now : Dayjs.clock) (u : user)
  : call (settled (Drive.response Drive.file_list)) :=
  files_list (getDriveClient (accessToken u))
    ("name='" ++ dateString now ++ "' and '" ++ GOOGLE_DRIVE_FOLDER_ID env
       ++ "' in parents")
    "files(id, name)".

(** What [POST /api/todos] uploads: the body of the request, printed again
    with an indentation of two. *)
Definition upload_of (req : request) : Drive.media :=
  Drive.mkMedia "application/json" (JSON_stringify (req_body req) 2).

(** A run that ends in the generic 500 right after logging the error: a
    rejected store call, the last call made before the log entry, or the
    [TypeError] of a missing user with no call before it. *)
Definition failed_run (line text : string) (out : outcome response)
  (t : list event) : Prop :=
  exists e before,
    t = (before ++ [Called (console_error line e) tt])%list
    /\ out = Returned (res_status_send 500 text)
    /\ (before = []
        \/ exists ok ev,
             before = (ok ++ [ev])%list
             /\ store_failure ev = Some e
             /\ Forall (fun ev' => store_failure ev' = None) ok).

(** The key as the description of the scheme spells it: the lower-case
    three-letter names of the days and months, and the day of the month in
    two digits. *)
Definition day_abbreviations : list string :=
  ["sun"; "mon"; "tue"; "wed"; "thu"; "fri"; "sat"].

Definition month_abbreviations : list string :=
  ["jan"; "feb"; "mar"; "apr"; "may"; "jun"; "jul"; "aug"; "sep"; "oct";
   "nov"; "dec"].

Definition decimal_digit (n : Z) : ascii := ascii_of_nat (48 + Z.to_nat n).

Definition two_digits (n : Z) : string :=
  String (decimal_digit (n / 10)) (String (decimal_digit (n mod 10)) "").

Definition key_of_date (weekday day month : Z) : string :=
  nth (Z.to_nat weekday) day_abbreviations ""
    ++ two_digits day
    ++ nth (Z.to_nat month) month_abbreviations ""
    ++ ".json".

(** The answer of a save that went through. *)
Definition saved : response := res_json (JObj [("success", JBool true)]).

(** The world with another state of the store. *)
Definition with_drive (w : world) (st : Drive.store) : world :=
  mkWorld st (relay_up w) (outbox w) (console w).

(** The files of a store a listing for this name and folder returns. *)
Definition named_in (dateString folder : string) (st : Drive.store)
  : list Drive.file :=
  filter (Drive.matches_query dateString folder) (Drive.contents st).

End Server.

(** ** Sample data *)

Module Sample.

Import JS Server.

Definition env : environment :=
  mkEnv "todo@example.org" "http://localhost:5173" "folder-1".

Definition ann : user :=
  mkUser "Ann" [mkEmail "ann@example.org"] "token-ann" "".

(** 2026-01-05, a Monday, 10:00 UTC. *)
Definition monday : Dayjs.clock := Dayjs.mkClock 1767607200000 0.

(** The same day, 23:59:59 local time at UTC-5. *)
Definition monday_late : Dayjs.clock := Dayjs.mkClock 1767675599000 (-300).

(** One second later: 2026-01-06 there. *)
Definition tuesday : Dayjs.clock := Dayjs.mkClock 1767675600000 (-300).

(** 2032-01-05, the next 5 January that is a Monday, 10:00 UTC. *)
Definition monday_in_2032 : Dayjs.clock := Dayjs.mkClock 1956909600000 0.

Definition tasks : json := JObj [("tasks", JArr [])].

Definition empty_world : world :=
  mkWorld (Drive.mkStore [] ["token-ann"]) true [] [].

(** The document of the Monday as a save stores it, and another file of the
    same name in the same folder. *)
Definition stored : Drive.file :=
  Drive.mkFile 1%nat "mon05jan.json" ["folder-1"] "application/json"
    (JSON_stringify tasks 2).

Definition stray : Drive.file :=
  Drive.mkFile 2%nat "mon05jan.json" ["folder-1"] "application/json" "[]".

Definition doubled_world : world :=
  mkWorld (Drive.mkStore [stored; stray] ["token-ann"]) true [] [].

(** A store that accepts no token, and a relay that is down. *)
Definition locked_world : world := mkWorld (Drive.mkStore [] []) false [] [].

Definition get_request : request :=
  mkRequest GET "/api/todos" (Some ann) (JObj []).

Definition post_request (body : json) : request :=
  mkRequest POST "/api/todos" (Some ann) body.

Definition reminder_request : request :=
  mkRequest POST "/api/send-reminder" (Some ann)
    (JObj [("taskName", JStr "Water the plants");
           ("dueDate", JStr "2026-01-06");
           ("priority", JStr "high");
           ("taskId", JNum 4)]).


End Sample.

(** ** Logging in: the passport callbacks *)

Module Passport.

Import JS Server.

(** [done(error, value)]: what a callback hands back. *)
Definition done (A : Type) : Type := (option error * A)%type.

(** [profile.accessToken = accessToken] and [profile.refreshToken =
    refreshToken] *)
Definition set_accessToken (profile : user) (accessToken : string) : user :=
  mkUser (displayName profile) (emails profile) accessToken
    (refreshToken profile).

Definition set_refreshToken (profile : user) (refreshToken : string) : user :=
  mkUser (displayName profile) (emails profile) (accessToken profile)
    refreshToken.

(** The verify callback of the Google strategy. *)
Definition verify (accessToken refreshToken : string) (profile : user)
  : done user :=
  let profile := set_accessToken profile accessToken in
  let profile := set_refreshToken profile refreshToken in
  (None, profile).

(** [passport.serializeUser] and [passport.deserializeUser]: the session
    holds the user as it is. *)
Definition serializeUser (u : user) : done user := (None, u).
Definition deserializeUser (u : user) : done user := (None, u).

(** [req.user] of a request in the session a login made: the profile goes
    through the verify callback, into the session, and out of it again;
    [None] when a callback hands back an error. *)
Definition session_user (accessToken refreshToken : string) (profile : user)
  : option user :=
  match verify accessToken refreshToken profile with
  | (None, verified) =>
    match serializeUser verified with
    | (None, kept) =>
      match deserializeUser kept with
      | (None, u) => Some u
      | (Some _, _) => None
      end
    | (Some _, _) => None
    end
  | (Some _, _) => None
  end.

End Passport.

(** ** Requests one after the other *)

Module Service.

Import JS Server.

(** The access token a store call carries. *)
Definition token_of (ev : event) : option string :=
  match ev with
  | Called (files_list d _ _) _ => Some (access_token d)
  | Called (files_get d _ _) _ => Some (access_token d)
  | Called (files_update d _ _) _ => Some (access_token d)
  | Called (files_create d _ _) _ => Some (access_token d)
  | Called _ _ => None
  end.

(** The downloads of a trace. *)
Definition is_download (ev : event) : bool :=
  match ev with
  | Called (files_get _ _ _) _ => true
  | Called _ _ => false
  end.

(** The world after one request at one time is served; a request for no
    route behind [isAuthenticated] leaves it alone. *)
Definition serve (env : environment) (r : Dayjs.clock * request) (w : world)
  : world :=
  match route env (fst r) (snd r) with
  | Some p => snd (fst (run the_world p w))
  | None => w
  end.

Definition serve_all (env : environment)
  (requests : list (Dayjs.clock * request)) (w : world) : world :=
  fold_left (fun w r => serve env r w) requests w.

(** A store in which identifiers are distinct and no two files of the folder
    have the same name. *)
Definition tidy (folder : string) (st : Drive.store) : Prop :=
  NoDup (map Drive.id (Drive.contents st))
  /\ forall n : string, (List.length (named_in n folder st) <= 1)%nat.

(** The store a save for [key] with the upload [m] leaves: the first file
    listed for the key takes the upload as its new revision, or, with none
    listed, a new file comes last. *)
Definition saved_store (key folder : string) (m : Drive.media)
  (st : Drive.store) : Drive.store :=
  match named_in key folder st with
  | [] =>
    Drive.mkStore
      (Drive.contents st
         ++ [Drive.mkFile (Drive.fresh_id (Drive.contents st)) key [folder]
               "application/json" (Drive.media_body m)])%list
      (Drive.tokens st)
  | f :: _ =>
    Drive.mkStore (Drive.upload (Drive.id f) m (Drive.contents st))
      (Drive.tokens st)
  end.

(** The identifier of the file a save writes. *)
Definition written_id (key folder : string) (st : Drive.store)
  : Drive.file_id :=
  match named_in key folder st with
  | [] => Drive.fresh_id (Drive.contents st)
  | f :: _ => Drive.id f
  end.

(** The uploads of a trace that the store took: updates and creates that
    were fulfilled. *)
Fixpoint taken_uploads (t : list event) : list Drive.media :=
  match t with
  | [] => []
  | Called (files_update _ _ m) (inr _) :: t' => m :: taken_uploads t'
  | Called (files_create _ _ m) (inr _) :: t' => m :: taken_uploads t'
  | _ :: t' => taken_uploads t'
  end.

(** The characters of a key: lower-case letters, digits and the dot. *)
Definition key_char (c : ascii) : bool :=
  let n := nat_of_ascii c in
  ((Nat.leb 97 n && Nat.leb n 122) || (Nat.leb 48 n && Nat.leb n 57)
   || Nat.eqb n 46)%bool.

Fixpoint all_key_chars (s : string) : bool :=
  match s with
  | EmptyString => true
  | String c s' => (key_char c && all_key_chars s')%bool
  end.

End Service.

(** Sample data of a login. *)
Module Visitor.

Import JS Server.

(** The profile of Ann as the identity provider hands it over, before the
    tokens are put on it. *)
Definition profile : user :=
  mkUser "Ann" [mkEmail "ann@example.org"] "" "".


(** An older document of another day, in the same folder. *)
Definition sunday_file : Drive.file :=
  Drive.mkFile 7%nat "sun04jan.json" ["folder-1"] "application/json"
    (JSON_stringify (JArr [JStr "rest"]) 2).

Definition sunday_world : world :=
  mkWorld (Drive.mkStore [sunday_file] ["token-ann"]) true [] [].

(** 2026-01-04, a Sunday, 10:00 UTC. *)
Definition sunday : Dayjs.clock := Dayjs.mkClock 1767520800000 0.

End Visitor.

(** * Properties *)

Import JS Server.

(** ** Strings *)

Section Strings.

Lemma append_assoc (a b c : string) : (a ++ b) ++ c = a ++ (b ++ c).
Proof.
  induction a as [ | x a IH]; [reflexivity | ].
  cbn [String.append]. now rewrite IH.
Qed.


Lemma append_cons (x : ascii) (a b : string) :
  String x a ++ b = String x (a ++ b).
Proof. reflexivity. Qed.

Lemma append_prefix_inj (a b x y : string) :
  String.length a = String.length b -> a ++ x = b ++ y -> a = b.
Proof.
  revert b. induction a as [ | c a IH]; intros [ | c' b] L E;
    try discriminate L; [reflexivity | ].
  rewrite !append_cons in E.
  injection E as -> E. injection L as L. f_equal. now apply IH.
Qed.

Lemma append_inj (a b x y : string) :
  String.length a = String.length b -> a ++ x = b ++ y -> a = b /\ x = y.
Proof.
  revert b. induction a as [ | c a IH]; intros [ | c' b] L E;
    try discriminate L; [now split | ].
  rewrite !append_cons in E.
  injection E as -> E. injection L as L.
  destruct (IH b L E) as [-> ->]. now split.
Qed.

End Strings.

(** ** JSON: what [JSON.stringify] prints, [JSON.parse] reads back *)

Section JSONRoundTrip.

#[local] Arguments String.append : simpl never.







(** **** Strings *)




(** **** Numbers *)









(** **** Values *)

















Ltac parsed_as E :=
  match goal with
  | |- context [parse_elements ?f ?r] =>
    assert (E : parse_elements f r = Some (_, _)); [ | rewrite E]
  | |- context [parse_members ?f ?r] =>
    assert (E : parse_members f r = Some (_, _)); [ | rewrite E]
  | |- context [parse_value ?f ?r] =>
    assert (E : parse_value f r = Some (_, _)); [ | rewrite E]
  end.




(** **** The fuel is enough *)


Lemma length_append (a b : string) :
  String.length (a ++ b) = (String.length a + String.length b)%nat.
Proof.
  induction a as [ | c a IH]; [reflexivity | ].
  rewrite append_cons. cbn [String.length]. now rewrite IH.
Qed.




End JSONRoundTrip.

(** ** The document key *)

Section DocumentKey.

#[local] Arguments Dayjs.emit : simpl never.
#[local] Arguments String.append : simpl never.

Lemma toLowerCase_app (a b : string) :
  toLowerCase (a ++ b) = toLowerCase a ++ toLowerCase b.
Proof.
  induction a as [ | c a IH]; [reflexivity | ].
  change (String c a ++ b) with (String c (a ++ b)).
  cbn [toLowerCase]. rewrite IH. reflexivity.
Qed.

Lemma format_dddDDMMM (d : Dayjs.t) :
  Dayjs.format d "dddDDMMM"
  = Dayjs.emit d "d" 3 ++ Dayjs.emit d "D" 2 ++ Dayjs.emit d "M" 3.
Proof. reflexivity. Qed.

Lemma weekday_bounds (z : Z) : 0 <= Dayjs.weekday z < 7.
Proof. unfold Dayjs.weekday. apply Z.mod_pos_bound. lia. Qed.

Lemma civil_bounds (z : Z) :
  0 <= snd (fst (Dayjs.civil z)) < 12 /\ 1 <= snd (Dayjs.civil z) <= 31.
Proof.
  unfold Dayjs.civil. cbn [fst snd].
  set (z' := z + 719468).
  set (doe := z' - z' / 146097 * 146097).
  assert (Hdoe : 0 <= doe < 146097).
  { subst doe. pose proof (Z.mod_pos_bound z' 146097 ltac:(lia)).
    rewrite Z.mod_eq in H by lia. lia. }
  set (yoe := (doe - doe / 1460 + doe / 36524 - doe / 146096) / 365).
  set (doy := doe - (365 * yoe + yoe / 4 - yoe / 100)).
  assert (Hdoy : 0 <= doy <= 365).
  { subst doy yoe. Z.div_mod_to_equations. lia. }
  clearbody doy. clear Hdoe. clearbody doe.
  set (mp := (5 * doy + 2) / 153).
  assert (Hmp : 0 <= mp <= 11) by (subst mp; Z.div_mod_to_equations; lia).
  split.
  - destruct (mp <? 10) eqn:E; [apply Z.ltb_lt in E | apply Z.ltb_ge in E]; lia.
  - subst mp. Z.div_mod_to_equations. lia.
Qed.

Lemma dayjs_fields (now : Dayjs.clock) :
  Dayjs.W_ (Dayjs.dayjs now) = Dayjs.weekday (Dayjs.local_day now)
  /\ Dayjs.D_ (Dayjs.dayjs now) = snd (Dayjs.civil (Dayjs.local_day now))
  /\ Dayjs.M_ (Dayjs.dayjs now)
     = snd (fst (Dayjs.civil (Dayjs.local_day now))).
Proof.
  unfold Dayjs.dayjs.
  destruct (Dayjs.civil (Dayjs.local_day now)) as [[y m] d]. repeat split.
Qed.

Lemma emit_weekday (d : Dayjs.t) :
  0 <= Dayjs.W_ d < 7 ->
  toLowerCase (Dayjs.emit d "d" 3)
  = nth (Z.to_nat (Dayjs.W_ d)) day_abbreviations "".
Proof.
  intros H. unfold Dayjs.emit. cbn [Dayjs.max_run Ascii.eqb Bool.eqb].
  cbn [Dayjs.matches Ascii.eqb Bool.eqb].
  assert (C : (Z.to_nat (Dayjs.W_ d) < 7)%nat) by lia.
  unfold Dayjs.getShort.
  destruct (Z.to_nat (Dayjs.W_ d)) as [ | [ | [ | [ | [ | [ | [ | k]]]]]]];
    try reflexivity; lia.
Qed.

Lemma emit_month (d : Dayjs.t) :
  0 <= Dayjs.M_ d < 12 ->
  toLowerCase (Dayjs.emit d "M" 3)
  = nth (Z.to_nat (Dayjs.M_ d)) month_abbreviations "".
Proof.
  intros H. unfold Dayjs.emit. cbn [Dayjs.max_run Ascii.eqb Bool.eqb].
  cbn [Dayjs.matches Ascii.eqb Bool.eqb].
  assert (C : (Z.to_nat (Dayjs.M_ d) < 12)%nat) by lia.
  unfold Dayjs.getShort.
  destruct (Z.to_nat (Dayjs.M_ d))
    as [ | [ | [ | [ | [ | [ | [ | [ | [ | [ | [ | [ | k]]]]]]]]]]]];
    try reflexivity; lia.
Qed.

Lemma two_digit_days :
  forallb
    (fun n =>
       String.eqb
         (toLowerCase (Dayjs.padStart (Number_toString n) 2 "0"))
         (two_digits n))
    (map Z.of_nat (seq 1 31))
  = true.
Proof. vm_compute. reflexivity. Qed.

Lemma emit_day (d : Dayjs.t) :
  1 <= Dayjs.D_ d <= 31 ->
  toLowerCase (Dayjs.emit d "D" 2) = two_digits (Dayjs.D_ d).
Proof.
  intros H. unfold Dayjs.emit. cbn [Dayjs.max_run Ascii.eqb Bool.eqb].
  cbn [Dayjs.matches Ascii.eqb Bool.eqb].
  pose proof two_digit_days as T. rewrite forallb_forall in T.
  assert (Hin : In (Dayjs.D_ d) (map Z.of_nat (seq 1 31))).
  { apply in_map_iff. exists (Z.to_nat (Dayjs.D_ d)).
    split; [lia | apply in_seq; lia]. }
  specialize (T _ Hin). apply String.eqb_eq in T.
  destruct (String.eqb (Dayjs.padStart (Number_toString (Dayjs.D_ d)) 2 "0") "")
    eqn:E; [ | exact T].
  apply String.eqb_eq in E. rewrite E in T.
  assert (L : String.length (two_digits (Dayjs.D_ d)) = 2%nat) by reflexivity.
  rewrite <- T in L. discriminate L.
Qed.

Lemma dateString_spelled (now : Dayjs.clock) :
  dateString now
  = key_of_date (Dayjs.W_ (Dayjs.dayjs now)) (Dayjs.D_ (Dayjs.dayjs now))
      (Dayjs.M_ (Dayjs.dayjs now)).
Proof.
  destruct (dayjs_fields now) as (HW & HD & HM).
  pose proof (weekday_bounds (Dayjs.local_day now)) as BW.
  destruct (civil_bounds (Dayjs.local_day now)) as [BM BD].
  rewrite <- HW in BW. rewrite <- HM in BM. rewrite <- HD in BD.
  unfold dateString, key_of_date.
  rewrite format_dddDDMMM, !toLowerCase_app.
  rewrite emit_weekday, emit_day, emit_month by assumption.
  rewrite !append_assoc. reflexivity.
Qed.

Lemma day_abbreviation_length (n : nat) :
  (n < 7)%nat -> String.length (nth n day_abbreviations "") = 3%nat.
Proof.
  intros H.
  destruct n as [ | [ | [ | [ | [ | [ | [ | n]]]]]]]; try reflexivity; lia.
Qed.

Lemma day_abbreviations_differ : NoDup day_abbreviations.
Proof.
  unfold day_abbreviations.
  repeat (constructor;
          [cbn [In]; intros H;
           repeat (destruct H as [H | H]; [discriminate H | ]); exact H | ]).
  constructor.
Qed.

Lemma month_abbreviation_length (n : nat) :
  (n < 12)%nat -> String.length (nth n month_abbreviations "") = 3%nat.
Proof.
  intros H.
  destruct n as [ | [ | [ | [ | [ | [ | [ | [ | [ | [ | [ | [ | n]]]]]]]]]]]];
    try reflexivity; lia.
Qed.

Lemma month_abbreviations_differ : NoDup month_abbreviations.
Proof.
  unfold month_abbreviations.
  repeat (constructor;
          [cbn [In]; intros H;
           repeat (destruct H as [H | H]; [discriminate H | ]); exact H | ]).
  constructor.
Qed.

Lemma decimal_digit_inj (a b : Z) :
  0 <= a < 10 -> 0 <= b < 10 -> decimal_digit a = decimal_digit b -> a = b.
Proof.
  intros Ha Hb E. unfold decimal_digit in E.
  apply (f_equal nat_of_ascii) in E.
  rewrite !nat_ascii_embedding in E by lia. lia.
Qed.

Lemma two_digits_inj (a b : Z) :
  0 <= a < 100 -> 0 <= b < 100 -> two_digits a = two_digits b -> a = b.
Proof.
  intros Ha Hb E. unfold two_digits in E. injection E as E1 E0.
  apply decimal_digit_inj in E1;
    [ | Z.div_mod_to_equations; lia | Z.div_mod_to_equations; lia].
  apply decimal_digit_inj in E0;
    [ | Z.div_mod_to_equations; lia | Z.div_mod_to_equations; lia].
  Z.div_mod_to_equations. lia.
Qed.

(** The key tells the day of the week, the day of the month and the month,
    and nothing else. *)
Lemma key_of_date_inj (w d m w' d' m' : Z) :
  0 <= w < 7 -> 1 <= d <= 31 -> 0 <= m < 12 ->
  0 <= w' < 7 -> 1 <= d' <= 31 -> 0 <= m' < 12 ->
  key_of_date w d m = key_of_date w' d' m' ->
  w = w' /\ d = d' /\ m = m'.
Proof.
  intros Hw Hd Hm Hw' Hd' Hm' E. unfold key_of_date in E.
  apply append_inj in E as [Ew E];
    [ | rewrite !day_abbreviation_length by lia; reflexivity].
  apply append_inj in E as [Ed E]; [ | reflexivity].
  apply append_inj in E as [Em _];
    [ | rewrite !month_abbreviation_length by lia; reflexivity].
  apply (proj1 (NoDup_nth day_abbreviations "") day_abbreviations_differ)
    in Ew; [ | cbn; lia | cbn; lia].
  apply (proj1 (NoDup_nth month_abbreviations "") month_abbreviations_differ)
    in Em; [ | cbn; lia | cbn; lia].
  apply two_digits_inj in Ed; [ | lia | lia].
  repeat split; lia.
Qed.

(** C2 (as the code has it): the key of a clock reading is the lower-case
    three-letter name of its local day of the week, the day of the month in
    two digits, the lower-case three-letter name of the month, and [.json];
    10:00 on Monday 2026-01-05 gives [mon05jan.json].  Two readings give the
    same key exactly when their local dates agree in day of the week, day of
    the month and month; the year is no part of it.  So two readings on the
    same local calendar day give the same key, and a reading on the next
    day, or on any of the six days that follow a day, gives a different
    key. *)
Theorem document_key_of_the_day :
  forall now : Dayjs.clock,
    let d := Dayjs.dayjs now in
    (0 <= Dayjs.W_ d < 7 /\ 1 <= Dayjs.D_ d <= 31 /\ 0 <= Dayjs.M_ d < 12
     /\ dateString now
        = nth (Z.to_nat (Dayjs.W_ d)) day_abbreviations ""
            ++ two_digits (Dayjs.D_ d)
            ++ nth (Z.to_nat (Dayjs.M_ d)) month_abbreviations ""
            ++ ".json")
    /\ dateString Sample.monday = "mon05jan.json"
    /\ (forall later : Dayjs.clock,
           let d' := Dayjs.dayjs later in
           dateString later = dateString now
           <-> Dayjs.W_ d' = Dayjs.W_ d /\ Dayjs.D_ d' = Dayjs.D_ d
               /\ Dayjs.M_ d' = Dayjs.M_ d)
    /\ (forall later : Dayjs.clock,
           Dayjs.local_day later = Dayjs.local_day now ->
           dateString later = dateString now)
    /\ (forall later : Dayjs.clock,
           Dayjs.local_day now < Dayjs.local_day later
             < Dayjs.local_day now + 7 ->
           dateString later <> dateString now).
Proof.
  intros now d. subst d.
  destruct (dayjs_fields now) as (HW & HD & HM).
  pose proof (weekday_bounds (Dayjs.local_day now)) as BW.
  destruct (civil_bounds (Dayjs.local_day now)) as [BM BD].
  assert (Hiff : forall later : Dayjs.clock,
             dateString later = dateString now
             <-> Dayjs.W_ (Dayjs.dayjs later) = Dayjs.W_ (Dayjs.dayjs now)
                 /\ Dayjs.D_ (Dayjs.dayjs later) = Dayjs.D_ (Dayjs.dayjs now)
                 /\ Dayjs.M_ (Dayjs.dayjs later) = Dayjs.M_ (Dayjs.dayjs now)).
  { intros later.
    destruct (dayjs_fields later) as (HW' & HD' & HM').
    pose proof (weekday_bounds (Dayjs.local_day later)) as BW'.
    destruct (civil_bounds (Dayjs.local_day later)) as [BM' BD'].
    rewrite !dateString_spelled. split.
    - intros E. apply key_of_date_inj in E; [exact E | lia ..].
    - intros (-> & -> & ->). reflexivity. }
  split; [ | split; [reflexivity | split; [exact Hiff | split]]].
  - rewrite HW, HD, HM. repeat split; try lia.
    rewrite <- HW, <- HD, <- HM. apply dateString_spelled.
  - intros later Hday. apply Hiff.
    destruct (dayjs_fields later) as (HW' & HD' & HM').
    rewrite HW, HD, HM, HW', HD', HM', Hday. repeat split.
  - intros later Hday Hkey. apply Hiff in Hkey as (Hkey & _ & _).
    destruct (dayjs_fields later) as (HW' & _ & _).
    rewrite HW, HW' in Hkey.
    clear - Hday Hkey. unfold Dayjs.weekday in Hkey.
    set (a := Dayjs.local_day later) in *. set (b := Dayjs.local_day now) in *.
    clearbody a b. Z.div_mod_to_equations. lia.
Qed.

(** C2 as it is stated fails across years: 2032-01-05 comes 2191 days after
    2026-01-05, the date has rolled over, and the key is the same, since both
    are a Monday, the 5th, in January. *)
Lemma document_key_comes_back :
  Dayjs.local_day Sample.monday_in_2032 = Dayjs.local_day Sample.monday + 2191
  /\ dateString Sample.monday = "mon05jan.json"
  /\ dateString Sample.monday_in_2032 = "mon05jan.json"
  /\ ~ dateString Sample.monday_in_2032 <> dateString Sample.monday.
Proof.
  repeat split; try (vm_compute; reflexivity).
  intros H. apply H. vm_compute. reflexivity.
Qed.

End DocumentKey.

(** ** The Drive store *)

Section DriveStore.

#[local] Arguments String.append : simpl never.

Lemma plain_app (a b : string) :
  Drive.plain (a ++ b) = (Drive.plain a && Drive.plain b)%bool.
Proof.
  induction a as [ | c a IH]; [reflexivity | ].
  rewrite append_cons. cbn [Drive.plain]. rewrite IH.
  now rewrite !andb_assoc.
Qed.

Lemma read_quoted_plain (s rest : string) :
  Drive.plain s = true ->
  Drive.read_quoted (s ++ String "'" rest) = Some (s, rest).
Proof.
  induction s as [ | c s IH]; [reflexivity | ].
  cbn [Drive.plain]. intros H.
  apply andb_prop in H as [H Hs]. apply andb_prop in H as [Hq Hb].
  rewrite append_cons. cbn [Drive.read_quoted].
  apply negb_true_iff in Hq, Hb. rewrite Hq, Hb, (IH Hs). reflexivity.
Qed.

Lemma parse_query_plain (n p : string) :
  Drive.plain n = true -> Drive.plain p = true ->
  Drive.parse_query ("name='" ++ n ++ "' and '" ++ p ++ "' in parents")
  = Some (n, p).
Proof.
  intros Hn Hp. unfold Drive.parse_query.
  change (expect "name='" ("name='" ++ n ++ "' and '" ++ p ++ "' in parents"))
    with (Some (n ++ "' and '" ++ p ++ "' in parents")).
  change (n ++ "' and '" ++ p ++ "' in parents")
    with (n ++ String "'" (" and '" ++ p ++ "' in parents")).
  cbv beta iota. rewrite (read_quoted_plain n _ Hn).
  change (expect " and '" (" and '" ++ p ++ "' in parents"))
    with (Some (p ++ String "'" " in parents")).
  cbv beta iota. rewrite (read_quoted_plain p _ Hp). reflexivity.
Qed.

Lemma plain_keys :
  forallb
    (fun w =>
       forallb
         (fun d =>
            forallb
              (fun m => Drive.plain (key_of_date w d m))
              (map Z.of_nat (seq 0 12)))
         (map Z.of_nat (seq 1 31)))
    (map Z.of_nat (seq 0 7))
  = true.
Proof. vm_compute. reflexivity. Qed.

Lemma in_range (lo len : nat) (z : Z) :
  Z.of_nat lo <= z < Z.of_nat (lo + len) ->
  In z (map Z.of_nat (seq lo len)).
Proof.
  intros H. apply in_map_iff. exists (Z.to_nat z).
  split; [lia | apply in_seq; lia].
Qed.

Lemma plain_dateString (now : Dayjs.clock) :
  Drive.plain (dateString now) = true.
Proof.
  rewrite dateString_spelled.
  destruct (dayjs_fields now) as (HW & HD & HM).
  pose proof (weekday_bounds (Dayjs.local_day now)) as BW.
  destruct (civil_bounds (Dayjs.local_day now)) as [BM BD].
  rewrite HW, HD, HM.
  pose proof plain_keys as T.
  assert (IW : In (Dayjs.weekday (Dayjs.local_day now))
                 (map Z.of_nat (seq 0 7))) by (apply in_range; lia).
  assert (ID : In (snd (Dayjs.civil (Dayjs.local_day now)))
                 (map Z.of_nat (seq 1 31))) by (apply in_range; lia).
  assert (IM : In (snd (fst (Dayjs.civil (Dayjs.local_day now))))
                 (map Z.of_nat (seq 0 12))) by (apply in_range; lia).
  rewrite forallb_forall in T. specialize (T _ IW).
  rewrite forallb_forall in T. specialize (T _ ID).
  rewrite forallb_forall in T. exact (T _ IM).
Qed.

(** **** Uploading a new revision *)

Lemma revision_matches (n p : string) (f : Drive.file) (m : Drive.media) :
  Drive.matches_query n p
    (Drive.mkFile (Drive.id f) (Drive.name f) (Drive.parents f)
       (Drive.media_mimeType m) (Drive.media_body m))
  = Drive.matches_query n p f.
Proof. reflexivity. Qed.

Lemma upload_keeps_listing (n p : string) (i : Drive.file_id)
  (m : Drive.media) (l : list Drive.file) :
  map Drive.handle_of (filter (Drive.matches_query n p) (Drive.upload i m l))
  = map Drive.handle_of (filter (Drive.matches_query n p) l).
Proof.
  induction l as [ | f l IH]; [reflexivity | ].
  cbn [Drive.upload]. destruct (Nat.eqb (Drive.id f) i).
  - cbn [filter]. rewrite revision_matches.
    destruct (Drive.matches_query n p f); reflexivity.
  - cbn [filter]. destruct (Drive.matches_query n p f); cbn [map];
      now rewrite IH.
Qed.

Lemma find_upload (i : Drive.file_id) (m : Drive.media)
  (l : list Drive.file) :
  Drive.find_file i (Drive.upload i m l)
  = option_map
      (fun g =>
         Drive.mkFile (Drive.id g) (Drive.name g) (Drive.parents g)
           (Drive.media_mimeType m) (Drive.media_body m))
      (Drive.find_file i l).
Proof.
  unfold Drive.find_file. induction l as [ | f l IH]; [reflexivity | ].
  cbn [Drive.upload find]. destruct (Nat.eqb (Drive.id f) i) eqn:E.
  - cbn [find Drive.id]. rewrite E. reflexivity.
  - cbn [find]. rewrite E. exact IH.
Qed.

Lemma find_file_in (f : Drive.file) (l : list Drive.file) :
  In f l -> exists g, Drive.find_file (Drive.id f) l = Some g.
Proof.
  unfold Drive.find_file. induction l as [ | x l IH]; [intros [] | ].
  intros [-> | H]; cbn [find].
  - rewrite Nat.eqb_refl. eauto.
  - destruct (Nat.eqb (Drive.id x) (Drive.id f)); eauto.
Qed.

Lemma named_in_store (n p : string) (st : Drive.store) (f : Drive.file)
  (others : list Drive.file) :
  named_in n p st = f :: others -> In f (Drive.contents st).
Proof.
  intros H. assert (I : In f (named_in n p st)) by (rewrite H; now left).
  unfold named_in in I. now apply filter_In in I.
Qed.

(** **** Creating a file *)

Lemma fresh_id_above (l : list Drive.file) (f : Drive.file) :
  In f l -> (Drive.id f < Drive.fresh_id l)%nat.
Proof.
  unfold Drive.fresh_id. induction l as [ | x l IH]; [intros [] | ].
  intros [-> | H]; cbn [fold_right]; [lia | ].
  specialize (IH H). lia.
Qed.

Lemma find_file_last (i : Drive.file_id) (l : list Drive.file)
  (new : Drive.file) :
  Drive.id new = i ->
  (forall f, In f l -> Drive.id f <> i) ->
  Drive.find_file i (l ++ [new])%list = Some new.
Proof.
  intros E H. unfold Drive.find_file.
  induction l as [ | x l IH]; cbn [app find].
  - rewrite E, Nat.eqb_refl. reflexivity.
  - destruct (Nat.eqb (Drive.id x) i) eqn:Ex.
    + apply Nat.eqb_eq in Ex. exfalso. apply (H x); [now left | exact Ex].
    + apply IH. intros f Hf. apply H. now right.
Qed.

Lemma find_file_fresh (l : list Drive.file) (new : Drive.file) :
  Drive.id new = Drive.fresh_id l ->
  Drive.find_file (Drive.fresh_id l) (l ++ [new])%list = Some new.
Proof.
  intros E. apply find_file_last; [exact E | ].
  intros f Hf. pose proof (fresh_id_above l f Hf). lia.
Qed.

End DriveStore.

(** ** The handlers, against whatever answers their calls *)

Section AnyOracle.

Context {W : Type} (o : oracle W).
Variable env : environment.

#[local] Arguments String.append : simpl never.
#[local] Arguments dateString : simpl never.
#[local] Arguments JSON_stringify : simpl never.



(** C4: when the listing for today's key comes back with no file,
    [GET /api/todos] answers 200 with the empty array [[]] and makes no
    further call; nothing is thrown and no error status is sent. *)
Theorem fetch_without_match_is_empty :
  forall (now : Dayjs.clock) (req : request) (u : user) (w w1 : W),
    req_user req = Some u ->
    answer o (listing env now u) w
      = (inr (Drive.mkResponse (Drive.mkFileList [])), w1) ->
    run o (get_todos env now req) w
      = (Returned (mkResponse 200 (as_json (JArr []))), w1,
         [Called (listing env now u)
            (inr (Drive.mkResponse (Drive.mkFileList [])))]).
Proof.
  intros now req u w w1 Hu Hlist.
  unfold get_todos. rewrite Hu. cbn.
  unfold listing, query in *. rewrite Hlist. reflexivity.
Qed.

(** C5: when the listing comes back with at least one file, [GET
    /api/todos] asks for the content of the first one, whatever follows it in
    the listing, and answers 200 with exactly the data that request gave:
    the handler neither inspects nor changes it. *)
Theorem fetch_returns_first_match_verbatim :
  forall (now : Dayjs.clock) (req : request) (u : user) (w w1 w2 : W)
         (file0 : Drive.handle) (others : list Drive.handle) (content : json),
    req_user req = Some u ->
    answer o (listing env now u) w
      = (inr (Drive.mkResponse (Drive.mkFileList (file0 :: others))), w1) ->
    answer o
      (files_get (getDriveClient (accessToken u)) (Drive.h_id file0) "media")
      w1
      = (inr (Drive.mkResponse content), w2) ->
    run o (get_todos env now req) w
      = (Returned (mkResponse 200 (as_json content)), w2,
         [Called (listing env now u)
            (inr (Drive.mkResponse (Drive.mkFileList (file0 :: others))));
          Called
            (files_get (getDriveClient (accessToken u)) (Drive.h_id file0)
               "media")
            (inr (Drive.mkResponse content))]).
Proof.
  intros now req u w w1 w2 file0 others content Hu Hlist Hget.
  unfold get_todos. rewrite Hu. cbn.
  unfold listing, query in *. rewrite Hlist. cbn.
  rewrite Hget. reflexivity.
Qed.

(** C1: [POST /api/todos] with a session user first lists the files named
    by today's key in the configured folder.  If the listing fails no other
    store call follows.  If it holds a file, the one other store call is an
    update of the first listed identifier, and if it holds none, the one
    other store call is a create with name = key, parents = the folder and
    type [application/json].  Either write carries the whole new document
    as its media; the old content is never read. *)
Theorem save_lists_then_updates_or_creates :
  forall (now : Dayjs.clock) (req : request) (u : user) (w : W),
    req_user req = Some u ->
    let drive := getDriveClient (accessToken u) in
    let fileMetadata :=
      Drive.mkMetadata (dateString now) [GOOGLE_DRIVE_FOLDER_ID env]
        "application/json" in
    let write (fileList : Drive.response Drive.file_list) :=
      match Drive.files (Drive.data fileList) with
      | file0 :: _ =>
        Called (files_update drive (Drive.h_id file0) (upload_of req))
      | [] => Called (files_create drive fileMetadata (upload_of req))
      end in
    forall listed w1,
      answer o (listing env now u) w = (listed, w1) ->
      store_calls (snd (run o (post_todos env now req) w))
      = Called (listing env now u) listed
          :: match listed with
             | inl _ => []
             | inr fileList =>
               match Drive.files (Drive.data fileList) with
               | file0 :: _ =>
                 [write fileList
                    (fst (answer o
                            (files_update drive (Drive.h_id file0)
                               (upload_of req)) w1))]
               | [] =>
                 [write fileList
                    (fst (answer o
                            (files_create drive fileMetadata (upload_of req))
                            w1))]
               end
             end.
Proof.
  intros now req u w Hu drive fileMetadata write listed w1 Hlist.
  subst write drive fileMetadata.
  unfold post_todos. rewrite Hu. cbn.
  unfold listing, query, upload_of in *. rewrite Hlist.
  destruct listed as [e | [[[ | file0 others]]]]; cbn.
  - destruct (answer o (console_error _ e) w1) as [[] w2]. reflexivity.
  - destruct (answer o (files_create _ _ _) w1) as [[e | r] w2]; cbn.
    + destruct (answer o (console_error _ e) w2) as [[] w3]. reflexivity.
    + reflexivity.
  - destruct (answer o (files_update _ _ _) w1) as [[e | r] w2]; cbn.
    + destruct (answer o (console_error _ e) w2) as [[] w3]. reflexivity.
    + reflexivity.
Qed.

(** Every run of the two document handlers is a failed run, or ends well
    with no store call rejected. *)
Ltac failed_run_case :=
  match goal with
  | |- (_, _, [Called (console_error _ ?e) tt]) = _ -> _ =>
    intros [= <- <- <-]; left; exists e, [];
    split; [reflexivity | split; [reflexivity | left; reflexivity]]
  | |- (_, _, [?ev; Called (console_error _ ?e) tt]) = _ -> _ =>
    intros [= <- <- <-]; left; exists e, [ev];
    split; [reflexivity | split; [reflexivity | right; exists [], ev]];
    split; [reflexivity | split; [reflexivity | constructor]]
  | |- (_, _, [?ev0; ?ev; Called (console_error _ ?e) tt]) = _ -> _ =>
    intros [= <- <- <-]; left; exists e, [ev0; ev];
    split; [reflexivity | split; [reflexivity | right; exists [ev0], ev]];
    split; [reflexivity | split; [reflexivity | repeat constructor]]
  end.

Lemma get_todos_runs (now : Dayjs.clock) (req : request) (w : W) :
  forall out w' t,
    run o (get_todos env now req) w = (out, w', t) ->
    failed_run "Error fetching todos:" "Error fetching todos" out t
    \/ (exists v, out = Returned (res_json v))
       /\ Forall (fun ev => store_failure ev = None) t.
Proof.
  intros out w' t. unfold get_todos.
  destruct (req_user req) as [u | ]; cbn.
  - destruct (answer o (files_list _ _ _) w) as [[e | [[[ | file0 others]]]] w1];
      cbn.
    + destruct (answer o (console_error _ e) w1) as [[] w2]. failed_run_case.
    + intros [= <- <- <-]. right. split; [eexists; reflexivity | ].
      repeat constructor.
    + destruct (answer o (files_get _ _ _) w1) as [[e | r] w2]; cbn.
      * destruct (answer o (console_error _ e) w2) as [[] w3]. failed_run_case.
      * intros [= <- <- <-]. right. split; [eexists; reflexivity | ].
        repeat constructor.
  - destruct (answer o (console_error _ _) w) as [[] w1]. failed_run_case.
Qed.

Lemma post_todos_runs (now : Dayjs.clock) (req : request) (w : W) :
  forall out w' t,
    run o (post_todos env now req) w = (out, w', t) ->
    failed_run "Error saving todos:" "Error saving todos" out t
    \/ out = Returned (res_json (JObj [("success", JBool true)]))
       /\ Forall (fun ev => store_failure ev = None) t.
Proof.
  intros out w' t. unfold post_todos.
  destruct (req_user req) as [u | ]; cbn.
  - destruct (answer o (files_list _ _ _) w) as [[e | [[[ | file0 others]]]] w1];
      cbn.
    + destruct (answer o (console_error _ e) w1) as [[] w2]. failed_run_case.
    + destruct (answer o (files_create _ _ _) w1) as [[e | r] w2]; cbn.
      * destruct (answer o (console_error _ e) w2) as [[] w3]. failed_run_case.
      * intros [= <- <- <-]. right. split; [reflexivity | ].
        repeat constructor.
    + destruct (answer o (files_update _ _ _) w1) as [[e | r] w2]; cbn.
      * destruct (answer o (console_error _ e) w2) as [[] w3]. failed_run_case.
      * intros [= <- <- <-]. right. split; [reflexivity | ].
        repeat constructor.
  - destruct (answer o (console_error _ _) w) as [[] w1]. failed_run_case.
Qed.

(** A rejected store call in a failed run is the one right before the log
    entry, and the log entry holds its error. *)
Lemma failed_run_failure (line text : string) (out : outcome response)
  (t : list event) (ev : event) (e : error) :
  failed_run line text out t ->
  In ev t ->
  store_failure ev = Some e ->
  out = Returned (res_status_send 500 text)
  /\ exists before,
       t = (before ++ [ev; Called (console_error line e) tt])%list
       /\ Forall (fun ev' => store_failure ev' = None) before.
Proof.
  intros (e0 & before & -> & -> & Hbefore) Hin Hfail.
  split; [reflexivity | ].
  apply in_app_or in Hin.
  destruct Hbefore as [-> | (ok & ev0 & -> & Hev0 & Hok)].
  - destruct Hin as [[] | [<- | []]]. discriminate.
  - destruct Hin as [Hin | [<- | []]]; [ | discriminate].
    apply in_app_or in Hin. destruct Hin as [Hin | [-> | []]].
    + rewrite Forall_forall in Hok. rewrite (Hok _ Hin) in Hfail. discriminate.
    + assert (e0 = e) as -> by congruence.
      exists ok. rewrite <- app_assoc. split; [reflexivity | assumption].
Qed.

(** C9: when a call to the store (list, get, update or create) is rejected
    while [GET] or [POST /api/todos] runs, the handler catches it: the
    answer is status 500 with a fixed text that holds nothing of the error,
    the error went to [console.error], and the rejected call is the last
    store call made, so nothing is tried again. *)
Theorem store_failure_becomes_generic_500 :
  forall (now : Dayjs.clock) (req : request) (w : W) (ev : event) (e : error),
    store_failure ev = Some e ->
    (forall out w' t,
        run o (get_todos env now req) w = (out, w', t) ->
        In ev t ->
        out = Returned (mkResponse 500 (as_text "Error fetching todos"))
        /\ exists before,
             t = (before
                  ++ [ev; Called (console_error "Error fetching todos:" e) tt])%list
             /\ Forall (fun ev' => store_failure ev' = None) before)
    /\ (forall out w' t,
           run o (post_todos env now req) w = (out, w', t) ->
           In ev t ->
           out = Returned (mkResponse 500 (as_text "Error saving todos"))
           /\ exists before,
                t = (before
                     ++ [ev; Called (console_error "Error saving todos:" e) tt])%list
                /\ Forall (fun ev' => store_failure ev' = None) before).
Proof.
  intros now req w ev e Hfail. split; intros out w' t Hrun Hin.
  - destruct (get_todos_runs now req w out w' t Hrun) as [Hf | [_ Hok]].
    + exact (failed_run_failure _ _ out t ev e Hf Hin Hfail).
    + rewrite Forall_forall in Hok. rewrite (Hok _ Hin) in Hfail. discriminate.
  - destruct (post_todos_runs now req w out w' t Hrun) as [Hf | [_ Hok]].
    + exact (failed_run_failure _ _ out t ev e Hf Hin Hfail).
    + rewrite Forall_forall in Hok. rewrite (Hok _ Hin) in Hfail. discriminate.
Qed.



End AnyOracle.

(** ** The handlers in the world *)

Section InTheWorld.

Variable env : environment.
Hypothesis plain_folder : Drive.plain (GOOGLE_DRIVE_FOLDER_ID env) = true.

#[local] Arguments String.append : simpl never.
#[local] Arguments dateString : simpl never.
#[local] Arguments JSON_stringify : simpl never.
#[local] Arguments Drive.list : simpl never.
#[local] Arguments Drive.get : simpl never.
#[local] Arguments Drive.update : simpl never.
#[local] Arguments Drive.create : simpl never.

Let folder : string := GOOGLE_DRIVE_FOLDER_ID env.

Lemma list_in_the_world (st : Drive.store) (token : string)
  (now : Dayjs.clock) :
  Drive.list st token (query env (dateString now))
  = if Drive.authorized st token
    then inr (Drive.mkResponse
                (Drive.mkFileList
                   (map Drive.handle_of (named_in (dateString now) folder st))))
    else inl Drive.invalid_credentials.
Proof.
  unfold Drive.list, query.
  rewrite (parse_query_plain _ _ (plain_dateString now) plain_folder).
  reflexivity.
Qed.

(** A save that went through: the token was accepted, and the store and the
    calls are those of an update of the first file listed, or of a create
    when none was. *)
Lemma save_in_the_world (now : Dayjs.clock) (req : request) (u : user)
  (w w1 : world) (t : list event) :
  req_user req = Some u ->
  run the_world (post_todos env now req) w = (Returned saved, w1, t) ->
  let client := getDriveClient (accessToken u) in
  let st := drive w in
  Drive.authorized st (accessToken u) = true
  /\ match named_in (dateString now) folder st with
     | [] =>
       w1 = with_drive w
              (Drive.mkStore
                 (Drive.contents st
                    ++ [Drive.mkFile (Drive.fresh_id (Drive.contents st))
                          (dateString now) [folder] "application/json"
                          (JSON_stringify (req_body req) 2)])%list
                 (Drive.tokens st))
       /\ t = [Called (listing env now u)
                 (inr (Drive.mkResponse (Drive.mkFileList [])));
               Called
                 (files_create client
                    (Drive.mkMetadata (dateString now) [folder]
                       "application/json")
                    (upload_of req))
                 (inr (Drive.mkResponse tt))]
     | f :: others =>
       w1 = with_drive w
              (Drive.mkStore
                 (Drive.upload (Drive.id f) (upload_of req) (Drive.contents st))
                 (Drive.tokens st))
       /\ t = [Called (listing env now u)
                 (inr (Drive.mkResponse
                         (Drive.mkFileList
                            (map Drive.handle_of (f :: others)))));
               Called (files_update client (Drive.id f) (upload_of req))
                 (inr (Drive.mkResponse tt))]
     end.
Proof.
  intros Hu Hrun client st. subst client st.
  unfold post_todos in Hrun. rewrite Hu in Hrun. cbn in Hrun.
  fold (query env (dateString now)) in Hrun.
  rewrite list_in_the_world in Hrun.
  destruct (Drive.authorized (drive w) (accessToken u)) eqn:Hauth;
    [ | discriminate Hrun].
  split; [reflexivity | ].
  pose proof (named_in_store (dateString now) folder (drive w)) as Hin.
  destruct (named_in (dateString now) folder (drive w)) as [ | f others].
  - cbn in Hrun. unfold Drive.create in Hrun. rewrite Hauth in Hrun.
    cbn in Hrun. injection Hrun as <- <-. split; reflexivity.
  - cbn in Hrun. unfold Drive.update in Hrun. rewrite Hauth in Hrun.
    destruct (find_file_in f _ (Hin f others eq_refl)) as (g & Hg).
    rewrite Hg in Hrun. cbn in Hrun. injection Hrun as <- <-.
    split; reflexivity.
Qed.



Lemma named_in_created (n p : string) (l : list Drive.file)
  (tokens : list string) (i : Drive.file_id) (mime text : string) :
  named_in n p (Drive.mkStore (l ++ [Drive.mkFile i n [p] mime text])%list tokens)
  = (named_in n p (Drive.mkStore l tokens)
       ++ [Drive.mkFile i n [p] mime text])%list.
Proof.
  unfold named_in. cbn [Drive.contents]. rewrite filter_app. f_equal.
  cbn [filter]. unfold Drive.matches_query. cbn [Drive.name Drive.parents existsb].
  now rewrite !String.eqb_refl.
Qed.


Lemma upload_keeps_count (n p : string) (i : Drive.file_id)
  (m : Drive.media) (l tokens : list _) :
  List.length (named_in n p (Drive.mkStore (Drive.upload i m l) tokens))
  = List.length (named_in n p (Drive.mkStore l tokens)).
Proof.
  unfold named_in. cbn [Drive.contents].
  rewrite <- (length_map Drive.handle_of), upload_keeps_listing.
  apply length_map.
Qed.

(** What a save that went through does to the number of files listed for
    its key: it makes the one file when there was none, and keeps the number
    otherwise. *)
Lemma save_count (now : Dayjs.clock) (req : request) (u : user)
  (w w1 : world) (t : list event) :
  req_user req = Some u ->
  run the_world (post_todos env now req) w = (Returned saved, w1, t) ->
  List.length (named_in (dateString now) folder (drive w1))
  = Nat.max 1 (List.length (named_in (dateString now) folder (drive w))).
Proof.
  intros Hu Hrun.
  destruct (save_in_the_world now req u w w1 t Hu Hrun) as [_ Hcase].
  destruct (drive w) as [l tokens] eqn:D.
  cbn [Drive.contents Drive.tokens] in Hcase.
  destruct (named_in (dateString now) folder (Drive.mkStore l tokens))
    as [ | f others] eqn:N; destruct Hcase as [-> _]; cbn [drive with_drive].
  - rewrite named_in_created, N. reflexivity.
  - rewrite upload_keeps_count, N. cbn [List.length]. lia.
Qed.

(** C6 (as the code has it): of two saves in a row that both go through,
    for the same key and in the same session, the second one lists at least
    one file and updates the first listed; it never creates.  So the second
    save leaves the number of files with that name in the folder as the
    first one left it: the number from before, and one if there was none.
    The folder holds exactly one such file afterwards whenever it held at
    most one before the first save. *)
Theorem second_save_updates_and_adds_no_file :
  forall (now later : Dayjs.clock) (first second : request) (u : user)
         (w w1 w2 : world) (t1 t2 : list event),
    req_user first = Some u ->
    req_user second = Some u ->
    dateString later = dateString now ->
    run the_world (post_todos env now first) w = (Returned saved, w1, t1) ->
    run the_world (post_todos env later second) w1 = (Returned saved, w2, t2) ->
    let key := dateString now in
    let parent := GOOGLE_DRIVE_FOLDER_ID env in
    (exists (f : Drive.file) (others : list Drive.file),
        named_in key parent (drive w1) = f :: others
        /\ t2 = [Called (listing env later u)
                   (inr (Drive.mkResponse
                           (Drive.mkFileList
                              (map Drive.handle_of (f :: others)))));
                 Called
                   (files_update (getDriveClient (accessToken u))
                      (Drive.id f) (upload_of second))
                   (inr (Drive.mkResponse tt))])
    /\ List.length (named_in key parent (drive w2))
       = List.length (named_in key parent (drive w1))
    /\ List.length (named_in key parent (drive w1))
       = Nat.max 1 (List.length (named_in key parent (drive w)))
    /\ ((List.length (named_in key parent (drive w)) <= 1)%nat ->
        List.length (named_in key parent (drive w2)) = 1%nat).
Proof.
  intros now later first second u w w1 w2 t1 t2 H1 H2 Hkey R1 R2 key parent.
  subst key parent. fold folder.
  pose proof (save_count now first u w w1 t1 H1 R1) as C1.
  pose proof (save_count later second u w1 w2 t2 H2 R2) as C2.
  rewrite Hkey in C2.
  destruct (save_in_the_world later second u w1 w2 t2 H2 R2) as [_ Hcase].
  rewrite Hkey in Hcase.
  destruct (named_in (dateString now) folder (drive w1)) as [ | f others] eqn:N.
  { cbn [List.length] in C1. lia. }
  destruct Hcase as [_ ->].
  split; [exists f, others; split; reflexivity | ].
  cbn [List.length] in *. repeat split; lia.
Qed.

End InTheWorld.

(** ** The properties at the sample data *)

Section Checks.

Lemma document_key_of_the_day_check :
  dateString Sample.monday_late = dateString Sample.monday
  /\ dateString Sample.tuesday <> dateString Sample.monday.
Proof.
  destruct (document_key_of_the_day Sample.monday)
    as (_ & _ & _ & Hsame & Hnext).
  split.
  - apply Hsame. vm_compute. reflexivity.
  - apply Hnext. vm_compute. split; reflexivity.
Defined.


Lemma fetch_without_match_is_empty_check :
  run the_world (get_todos Sample.env Sample.monday Sample.get_request)
    Sample.empty_world
  = (Returned (mkResponse 200 (as_json (JArr []))), Sample.empty_world,
     [Called (listing Sample.env Sample.monday Sample.ann)
        (inr (Drive.mkResponse (Drive.mkFileList [])))]).
Proof.
  apply (fetch_without_match_is_empty the_world Sample.env Sample.monday
           Sample.get_request Sample.ann Sample.empty_world Sample.empty_world).
  - reflexivity.
  - vm_compute. reflexivity.
Defined.

Lemma fetch_returns_first_match_verbatim_check :
  run the_world (get_todos Sample.env Sample.monday Sample.get_request)
    Sample.doubled_world
  = (Returned (mkResponse 200 (as_json Sample.tasks)), Sample.doubled_world,
     [Called (listing Sample.env Sample.monday Sample.ann)
        (inr (Drive.mkResponse
                (Drive.mkFileList
                   [Drive.mkHandle 1%nat "mon05jan.json";
                    Drive.mkHandle 2%nat "mon05jan.json"])));
      Called (files_get (getDriveClient "token-ann") 1%nat "media")
        (inr (Drive.mkResponse Sample.tasks))]).
Proof.
  apply (fetch_returns_first_match_verbatim the_world Sample.env Sample.monday
           Sample.get_request Sample.ann Sample.doubled_world
           Sample.doubled_world Sample.doubled_world
           (Drive.mkHandle 1%nat "mon05jan.json")
           [Drive.mkHandle 2%nat "mon05jan.json"] Sample.tasks).
  - reflexivity.
  - vm_compute. reflexivity.
  - vm_compute. reflexivity.
Defined.

Lemma save_lists_then_updates_or_creates_check :
  store_calls
    (snd (run the_world
            (post_todos Sample.env Sample.monday
               (Sample.post_request Sample.tasks))
            Sample.doubled_world))
  = [Called (listing Sample.env Sample.monday Sample.ann)
       (inr (Drive.mkResponse
               (Drive.mkFileList
                  [Drive.mkHandle 1%nat "mon05jan.json";
                   Drive.mkHandle 2%nat "mon05jan.json"])));
     Called
       (files_update (getDriveClient "token-ann") 1%nat
          (upload_of (Sample.post_request Sample.tasks)))
       (inr (Drive.mkResponse tt))].
Proof.
  apply (save_lists_then_updates_or_creates the_world Sample.env Sample.monday
           (Sample.post_request Sample.tasks) Sample.ann Sample.doubled_world
           eq_refl
           (inr (Drive.mkResponse
                   (Drive.mkFileList
                      [Drive.mkHandle 1%nat "mon05jan.json";
                       Drive.mkHandle 2%nat "mon05jan.json"])))
           Sample.doubled_world).
  vm_compute. reflexivity.
Defined.

Lemma store_failure_becomes_generic_500_check :
  let r :=
    run the_world (get_todos Sample.env Sample.monday Sample.get_request)
      Sample.locked_world in
  let rejected :=
    Called (listing Sample.env Sample.monday Sample.ann)
      (inl Drive.invalid_credentials) in
  fst (fst r) = Returned (mkResponse 500 (as_text "Error fetching todos"))
  /\ exists before,
       snd r
       = (before
          ++ [rejected;
              Called
                (console_error "Error fetching todos:"
                   Drive.invalid_credentials) tt])%list
       /\ Forall (fun ev' => store_failure ev' = None) before.
Proof.
  intros r rejected.
  destruct (store_failure_becomes_generic_500 the_world Sample.env
              Sample.monday Sample.get_request Sample.locked_world rejected
              Drive.invalid_credentials eq_refl) as [Hget _].
  apply (Hget (fst (fst r)) (snd (fst r)) (snd r)).
  - vm_compute. reflexivity.
  - left. vm_compute. reflexivity.
Defined.




Lemma second_save_updates_and_adds_no_file_check :
  let r1 :=
    run the_world
      (post_todos Sample.env Sample.monday (Sample.post_request Sample.tasks))
      Sample.empty_world in
  let r2 :=
    run the_world
      (post_todos Sample.env Sample.monday_late
         (Sample.post_request (JArr [])))
      (snd (fst r1)) in
  List.length
    (named_in (dateString Sample.monday) (GOOGLE_DRIVE_FOLDER_ID Sample.env)
       (drive (snd (fst r2))))
  = 1%nat.
Proof.
  intros r1 r2.
  apply (second_save_updates_and_adds_no_file Sample.env eq_refl Sample.monday
           Sample.monday_late (Sample.post_request Sample.tasks)
           (Sample.post_request (JArr [])) Sample.ann Sample.empty_world
           (snd (fst r1)) (snd (fst r2)) (snd r1) (snd r2)).
  - reflexivity.
  - reflexivity.
  - vm_compute. reflexivity.
  - vm_compute. reflexivity.
  - vm_compute. reflexivity.
  - vm_compute. lia.
Defined.

(** C6 as it is stated fails where the folder already holds two files with
    the name of the key: both saves go through, the second one updates, and
    two files with that name are there afterwards, not one. *)
Lemma two_saves_leave_two_files :
  let r1 :=
    run the_world
      (post_todos Sample.env Sample.monday (Sample.post_request Sample.tasks))
      Sample.doubled_world in
  let r2 :=
    run the_world
      (post_todos Sample.env Sample.monday_late
         (Sample.post_request (JArr [])))
      (snd (fst r1)) in
  fst (fst r1) = Returned saved
  /\ fst (fst r2) = Returned saved
  /\ uploads (snd r2)
     = [Drive.mkMedia "application/json" (JSON_stringify (JArr []) 2)]
  /\ List.length
       (named_in "mon05jan.json" "folder-1" (drive (snd (fst r2))))
     = 2%nat
  /\ List.length
       (named_in "mon05jan.json" "folder-1" (drive (snd (fst r2))))
     <> 1%nat.
Proof. vm_compute. repeat split. discriminate. Qed.

End Checks.

(** * More of the handlers *)

(** ** Every run of a handler, against whatever answers its calls *)

Section EveryRun.

Context {W : Type} (o : oracle W).
Variable env : environment.

#[local] Arguments String.append : simpl never.
#[local] Arguments dateString : simpl never.
#[local] Arguments JSON_stringify : simpl never.

Ltac next_call :=
  match goal with
  | |- context [answer o ?c ?w] =>
    let a := fresh "a" in
    let w1 := fresh "w" in
    destruct (answer o c w) as [a w1]; cbn
  end.

Ltac open_answer :=
  match goal with
  | a : unit |- _ => destruct a
  | a : settled _ |- _ => destruct a as [? | a]; cbn
  | a : Drive.response Drive.file_list |- _ =>
    destruct a as [[[ | ? ?]]]; cbn
  end.

Ltac every_run := cbn; repeat first [next_call | open_answer].

Lemma run_projections {A : Type} (p : prog A) (w : W) :
  run o p w = (fst (fst (run o p w)), snd (fst (run o p w)), snd (run o p w)).
Proof. now destruct (run o p w) as [[out w'] t]. Qed.

(** X1: [GET] and [POST /api/todos] answer every request they are run for,
    whatever the calls do and whoever the user is: nothing is thrown out of
    the handler, a fetch answers 200 or 500, and a save answers
    [{success: true}] or the 500 with its fixed text. *)
Theorem todos_are_always_answered :
  forall (now : Dayjs.clock) (req : request) (w : W),
    (exists r : response,
        fst (fst (run o (get_todos env now req) w)) = Returned r
        /\ (status r = 200 \/ r = res_status_send 500 "Error fetching todos"))
    /\ (exists r : response,
           fst (fst (run o (post_todos env now req) w)) = Returned r
           /\ (r = saved \/ r = res_status_send 500 "Error saving todos")).
Proof.
  intros now req w. split.
  - unfold get_todos. destruct (req_user req) as [u | ]; every_run;
      eexists; (split; [reflexivity | ]); auto.
  - unfold post_todos. destruct (req_user req) as [u | ]; every_run;
      eexists; (split; [reflexivity | ]); auto.
Qed.


(** X3: what each handler leaves alone, whatever the calls answer: a fetch
    uploads nothing and sends no mail; a save downloads nothing, sends no
    mail and uploads at most once; a reminder makes no call to the store
    and hands at most one mail to the transport. *)
Theorem handlers_keep_to_their_calls :
  forall (now : Dayjs.clock) (req : request) (w : W),
    (uploads (snd (run o (get_todos env now req) w)) = []
     /\ mails (snd (run o (get_todos env now req) w)) = [])
    /\ (filter Service.is_download (snd (run o (post_todos env now req) w)) = []
        /\ mails (snd (run o (post_todos env now req) w)) = []
        /\ (List.length (uploads (snd (run o (post_todos env now req) w)))
            <= 1)%nat)
    /\ (store_calls (snd (run o (post_send_reminder env req) w)) = []
        /\ (List.length (mails (snd (run o (post_send_reminder env req) w)))
            <= 1)%nat).
Proof.
  intros now req w. repeat split.
  - unfold get_todos. destruct (req_user req); every_run; reflexivity.
  - unfold get_todos. destruct (req_user req); every_run; reflexivity.
  - unfold post_todos. destruct (req_user req); every_run; reflexivity.
  - unfold post_todos. destruct (req_user req); every_run; reflexivity.
  - unfold post_todos. destruct (req_user req); every_run; lia.
  - unfold post_send_reminder, sendTaskReminder.
    destruct (req_user req) as [u | ]; [ | reflexivity].
    cbn. destruct (emails u); every_run; reflexivity.
  - unfold post_send_reminder, sendTaskReminder.
    destruct (req_user req) as [u | ]; [ | cbn; lia].
    cbn. destruct (emails u); every_run; lia.
Qed.







Lemma todos_calls_carry_the_token (now : Dayjs.clock) (req : request)
  (u : user) (w : W) :
  req_user req = Some u ->
  Forall
    (fun ev => is_store_call ev = true
               -> Service.token_of ev = Some (accessToken u))
    (snd (run o (get_todos env now req) w))
  /\ Forall
       (fun ev => is_store_call ev = true
                  -> Service.token_of ev = Some (accessToken u))
       (snd (run o (post_todos env now req) w)).
Proof.
  intros Hu. unfold get_todos, post_todos. rewrite Hu.
  split; every_run;
    repeat (constructor; [intros H; first [reflexivity | discriminate H] | ]);
    constructor.
Qed.

(** X6: the way of the access token.  The verify callback puts the two
    tokens of the login on the profile and keeps its name and addresses; the
    session gives the user back as it took it; and every call a fetch or a
    save of that session makes to the store carries the access token of the
    login, never another one. *)
Theorem store_calls_carry_the_login_token :
  forall (accessToken refreshToken : string) (profile : user),
    exists u : user,
      Passport.session_user accessToken refreshToken profile = Some u
      /\ u = mkUser (displayName profile) (emails profile) accessToken
               refreshToken
      /\ forall (now : Dayjs.clock) (req : request) (w : W),
           req_user req = Some u ->
           Forall
             (fun ev => is_store_call ev = true
                        -> Service.token_of ev = Some accessToken)
             (snd (run o (get_todos env now req) w))
           /\ Forall
                (fun ev => is_store_call ev = true
                           -> Service.token_of ev = Some accessToken)
                (snd (run o (post_todos env now req) w)).
Proof.
  intros accessToken refreshToken profile.
  eexists. split; [reflexivity | split; [reflexivity | ]].
  intros now req w Hu.
  exact (todos_calls_carry_the_token now req _ w Hu).
Qed.

(** X8: a save is all or nothing towards its caller: when it answers
    [{success: true}] the store took exactly one upload, the document; when it
    answers 500 the store took none.  There is no answer of success without
    a write and no write behind an answer of failure. *)
Theorem save_answers_tell_what_was_written :
  forall (now : Dayjs.clock) (req : request) (w : W),
    (fst (fst (run o (post_todos env now req) w)) = Returned saved
     /\ Service.taken_uploads (snd (run o (post_todos env now req) w))
        = [upload_of req])
    \/ (fst (fst (run o (post_todos env now req) w))
        = Returned (res_status_send 500 "Error saving todos")
        /\ Service.taken_uploads (snd (run o (post_todos env now req) w))
           = []).
Proof.
  intros now req w. unfold post_todos.
  destruct (req_user req); every_run;
    first [left; split; reflexivity | right; split; reflexivity].
Qed.

End EveryRun.

(** ** The key and the query built from it *)

Section TheQuery.

#[local] Arguments String.append : simpl never.

Lemma keys_are_key_chars :
  forallb
    (fun w =>
       forallb
         (fun d =>
            forallb
              (fun m => Service.all_key_chars (key_of_date w d m))
              (map Z.of_nat (seq 0 12)))
         (map Z.of_nat (seq 1 31)))
    (map Z.of_nat (seq 0 7))
  = true.
Proof. vm_compute. reflexivity. Qed.

Lemma dateString_key_chars (now : Dayjs.clock) :
  Service.all_key_chars (dateString now) = true.
Proof.
  rewrite dateString_spelled.
  destruct (dayjs_fields now) as (HW & HD & HM).
  pose proof (weekday_bounds (Dayjs.local_day now)) as BW.
  destruct (civil_bounds (Dayjs.local_day now)) as [BM BD].
  rewrite HW, HD, HM.
  pose proof keys_are_key_chars as T.
  assert (IW : In (Dayjs.weekday (Dayjs.local_day now))
                 (map Z.of_nat (seq 0 7))) by (apply in_range; lia).
  assert (ID : In (snd (Dayjs.civil (Dayjs.local_day now)))
                 (map Z.of_nat (seq 1 31))) by (apply in_range; lia).
  assert (IM : In (snd (fst (Dayjs.civil (Dayjs.local_day now))))
                 (map Z.of_nat (seq 0 12))) by (apply in_range; lia).
  rewrite forallb_forall in T. specialize (T _ IW).
  rewrite forallb_forall in T. specialize (T _ ID).
  rewrite forallb_forall in T. exact (T _ IM).
Qed.

Lemma dateString_length (now : Dayjs.clock) :
  String.length (dateString now) = 13%nat.
Proof.
  rewrite dateString_spelled.
  destruct (dayjs_fields now) as (HW & HD & HM).
  pose proof (weekday_bounds (Dayjs.local_day now)) as BW.
  destruct (civil_bounds (Dayjs.local_day now)) as [BM BD].
  unfold key_of_date. rewrite !length_append.
  rewrite day_abbreviation_length, month_abbreviation_length by lia.
  reflexivity.
Qed.

(** X7: the key is always thirteen characters out of lower-case letters,
    digits and the dot, so that it cannot close the quotes of the query it is
    put into: whatever the folder identifier is, a query the handlers build
    that the store can read asks for files of exactly that name; and with a
    folder identifier free of quotes and backslashes the query reads as the
    name of the key and that folder. *)
Theorem query_asks_for_the_key :
  forall (env : environment) (now : Dayjs.clock),
    String.length (dateString now) = 13%nat
    /\ Service.all_key_chars (dateString now) = true
    /\ (forall n p : string,
           Drive.parse_query (query env (dateString now)) = Some (n, p) ->
           n = dateString now)
    /\ (Drive.plain (GOOGLE_DRIVE_FOLDER_ID env) = true ->
        Drive.parse_query (query env (dateString now))
        = Some (dateString now, GOOGLE_DRIVE_FOLDER_ID env)).
Proof.
  intros env now.
  split; [apply dateString_length | split; [apply dateString_key_chars | ]].
  split.
  - intros n p. unfold query, Drive.parse_query.
    change (expect "name='"
              ("name='" ++ dateString now ++ "' and '"
                 ++ GOOGLE_DRIVE_FOLDER_ID env ++ "' in parents"))
      with (Some (dateString now
                    ++ String "'" (" and '" ++ GOOGLE_DRIVE_FOLDER_ID env
                                     ++ "' in parents"))).
    cbv beta iota.
    rewrite (read_quoted_plain _ _ (plain_dateString now)).
    destruct (expect " and '" _) as [r3 | ]; [ | discriminate].
    destruct (Drive.read_quoted r3) as [[p' r4] | ]; [ | discriminate].
    destruct (String.eqb r4 " in parents"); [ | discriminate].
    intros [= <- _]. reflexivity.
  - intros Hp. unfold query.
    exact (parse_query_plain _ _ (plain_dateString now) Hp).
Qed.

End TheQuery.

(** ** The store over time *)

Section StoreOverTime.

#[local] Arguments String.append : simpl never.
#[local] Arguments dateString : simpl never.
#[local] Arguments JSON_stringify : simpl never.
#[local] Arguments Drive.list : simpl never.
#[local] Arguments Drive.get : simpl never.
#[local] Arguments Drive.update : simpl never.
#[local] Arguments Drive.create : simpl never.

(** **** Revisions and new files, file by file *)

Lemma upload_ids (i : Drive.file_id) (m : Drive.media) (l : list Drive.file) :
  map Drive.id (Drive.upload i m l) = map Drive.id l.
Proof.
  induction l as [ | f l IH]; [reflexivity | ].
  cbn [Drive.upload]. destruct (Nat.eqb (Drive.id f) i); cbn [map Drive.id].
  - reflexivity.
  - now rewrite IH.
Qed.

Lemma upload_twice (i : Drive.file_id) (m : Drive.media)
  (l : list Drive.file) :
  Drive.upload i m (Drive.upload i m l) = Drive.upload i m l.
Proof.
  induction l as [ | f l IH]; [reflexivity | ].
  cbn [Drive.upload]. destruct (Nat.eqb (Drive.id f) i) eqn:E.
  - cbn [Drive.upload Drive.id]. rewrite E. reflexivity.
  - cbn [Drive.upload]. rewrite E, IH. reflexivity.
Qed.

Lemma upload_past (i : Drive.file_id) (m : Drive.media)
  (l r : list Drive.file) :
  (forall f, In f l -> Drive.id f <> i) ->
  Drive.upload i m (l ++ r)%list = (l ++ Drive.upload i m r)%list.
Proof.
  intros H. induction l as [ | f l IH]; [reflexivity | ].
  cbn [app Drive.upload].
  destruct (Nat.eqb (Drive.id f) i) eqn:E.
  - apply Nat.eqb_eq in E. exfalso. apply (H f); [now left | exact E].
  - rewrite IH; [reflexivity | ]. intros g Hg. apply H. now right.
Qed.

Lemma find_upload_other (i j : Drive.file_id) (m : Drive.media)
  (l : list Drive.file) :
  j <> i ->
  Drive.find_file j (Drive.upload i m l) = Drive.find_file j l.
Proof.
  intros Hj. unfold Drive.find_file.
  induction l as [ | f l IH]; [reflexivity | ].
  cbn [Drive.upload]. destruct (Nat.eqb (Drive.id f) i) eqn:E.
  - apply Nat.eqb_eq in E. cbn [find Drive.id].
    assert (Nat.eqb (Drive.id f) j = false) as ->
        by (apply Nat.eqb_neq; lia).
    reflexivity.
  - cbn [find]. now rewrite IH.
Qed.

Lemma find_file_other_last (j : Drive.file_id) (l : list Drive.file)
  (new : Drive.file) :
  j <> Drive.id new ->
  Drive.find_file j (l ++ [new])%list = Drive.find_file j l.
Proof.
  intros Hj. unfold Drive.find_file.
  induction l as [ | f l IH]; cbn [app find].
  - assert (Nat.eqb (Drive.id new) j = false) as ->
        by (apply Nat.eqb_neq; lia).
    reflexivity.
  - now rewrite IH.
Qed.

Lemma find_file_id (j : Drive.file_id) (l : list Drive.file)
  (g : Drive.file) :
  Drive.find_file j l = Some g -> In g l /\ Drive.id g = j.
Proof.
  unfold Drive.find_file. intros H. apply find_some in H as [Hin Hid].
  split; [exact Hin | now apply Nat.eqb_eq].
Qed.

Lemma distinct_ids (l : list Drive.file) (a b : Drive.file) :
  NoDup (map Drive.id l) -> In a l -> In b l -> Drive.id a = Drive.id b ->
  a = b.
Proof.
  induction l as [ | f l IH]; [intros _ [] | ].
  cbn [map]. intros N Ha Hb E. inversion N as [ | x xs Hnot Hrest]; subst.
  destruct Ha as [-> | Ha], Hb as [-> | Hb].
  - reflexivity.
  - exfalso. apply Hnot. rewrite E. now apply in_map.
  - exfalso. apply Hnot. rewrite <- E. now apply in_map.
  - now apply IH.
Qed.

Lemma find_file_of (l : list Drive.file) (f : Drive.file) :
  NoDup (map Drive.id l) -> In f l -> Drive.find_file (Drive.id f) l = Some f.
Proof.
  intros N Hf. destruct (find_file_in f l Hf) as (g & Hg).
  destruct (find_file_id _ _ _ Hg) as [Hin Hid].
  now rewrite (distinct_ids l g f N Hin Hf Hid) in Hg.
Qed.

Lemma named_in_name (n p : string) (st : Drive.store) (f : Drive.file) :
  In f (named_in n p st) -> In f (Drive.contents st) /\ Drive.name f = n.
Proof.
  unfold named_in. intros H. apply filter_In in H as [Hin Hm].
  split; [exact Hin | ].
  unfold Drive.matches_query in Hm. apply andb_prop in Hm as [Hn _].
  now apply String.eqb_eq.
Qed.

Lemma named_in_other_created (n key p folder : string)
  (l : list Drive.file) (tokens : list string) (i : Drive.file_id)
  (mime text : string) :
  n <> key ->
  named_in n p
    (Drive.mkStore (l ++ [Drive.mkFile i key [folder] mime text])%list tokens)
  = named_in n p (Drive.mkStore l tokens).
Proof.
  intros Hn. unfold named_in. cbn [Drive.contents]. rewrite filter_app.
  cbn [filter]. unfold Drive.matches_query at 2. cbn [Drive.name].
  assert (String.eqb key n = false) as ->
      by (apply String.eqb_neq; congruence).
  cbn [andb]. apply app_nil_r.
Qed.

(** **** The handlers and the store *)

Variable env : environment.

Lemma listed (st : Drive.store) (token q : string)
  (hs : list Drive.handle) :
  Drive.list st token q = inr (Drive.mkResponse (Drive.mkFileList hs)) ->
  Drive.authorized st token = true
  /\ exists n p,
       hs = map Drive.handle_of
              (filter (Drive.matches_query n p) (Drive.contents st)).
Proof.
  unfold Drive.list. destruct (Drive.authorized st token); [ | discriminate].
  destruct (Drive.parse_query q) as [[n p] | ]; [ | discriminate].
  intros [= <-]. split; [reflexivity | now exists n, p].
Qed.

Lemma listed_first (st : Drive.store) (token q : string)
  (h : Drive.handle) (hs : list Drive.handle) :
  Drive.list st token q = inr (Drive.mkResponse (Drive.mkFileList (h :: hs))) ->
  exists g, Drive.find_file (Drive.h_id h) (Drive.contents st) = Some g.
Proof.
  intros L. destruct (listed _ _ _ _ L) as (_ & n & p & E).
  destruct (filter (Drive.matches_query n p) (Drive.contents st))
    as [ | f fs] eqn:F; [discriminate E | ].
  injection E as -> _.
  assert (In f (Drive.contents st)).
  { assert (I : In f (f :: fs)) by now left.
    rewrite <- F in I. now apply filter_In in I. }
  now apply find_file_in.
Qed.

Lemma fetch_keeps_the_store (now : Dayjs.clock) (req : request) (w : world) :
  drive (snd (fst (run the_world (get_todos env now req) w))) = drive w
  /\ outbox (snd (fst (run the_world (get_todos env now req) w))) = outbox w.
Proof.
  unfold get_todos. destruct (req_user req) as [u | ]; cbn;
    [ | split; reflexivity].
  destruct (Drive.list _ _ _) as [e | [[[ | h hs]]]]; cbn;
    try (split; reflexivity).
  destruct (Drive.get _ _ _ _) as [e | r]; cbn; split; reflexivity.
Qed.

Lemma reminder_keeps_the_store (req : request) (w : world) :
  drive (snd (fst (run the_world (post_send_reminder env req) w))) = drive w.
Proof.
  unfold post_send_reminder, sendTaskReminder.
  destruct (req_user req) as [u | ]; cbn; [ | reflexivity].
  destruct (emails u) as [ | address others]; cbn; [reflexivity | ].
  destruct (relay_up w); reflexivity.
Qed.

Lemma save_or_nothing (now : Dayjs.clock) (req : request) (w : world) :
  fst (fst (run the_world (post_todos env now req) w)) = Returned saved
  \/ (fst (fst (run the_world (post_todos env now req) w))
      = Returned (res_status_send 500 "Error saving todos")
      /\ drive (snd (fst (run the_world (post_todos env now req) w)))
         = drive w).
Proof.
  unfold post_todos. destruct (req_user req) as [u | ]; cbn;
    [ | right; split; reflexivity].
  destruct (Drive.list _ _ _) as [e | [[[ | h hs]]]] eqn:L; cbn.
  - right. split; reflexivity.
  - destruct (listed _ _ _ _ L) as (Hauth & _).
    unfold Drive.create. cbn [access_token getDriveClient] in *.
    rewrite Hauth. left. reflexivity.
  - destruct (listed _ _ _ _ L) as (Hauth & _).
    destruct (listed_first _ _ _ _ _ L) as (g & Hg).
    unfold Drive.update. cbn [access_token getDriveClient] in *.
    rewrite Hauth, Hg. left. reflexivity.
Qed.

Lemma save_needs_a_user (now : Dayjs.clock) (req : request) (w : world) :
  fst (fst (run the_world (post_todos env now req) w)) = Returned saved ->
  exists u, req_user req = Some u.
Proof.
  unfold post_todos. destruct (req_user req) as [u | ]; [eauto | ].
  cbn. discriminate.
Qed.

Hypothesis plain_folder : Drive.plain (GOOGLE_DRIVE_FOLDER_ID env) = true.

(** A save that went through left the store [Service.saved_store] tells. *)
Lemma saved_world (now : Dayjs.clock) (req : request) (u : user)
  (w w1 : world) (t : list event) :
  req_user req = Some u ->
  run the_world (post_todos env now req) w = (Returned saved, w1, t) ->
  Drive.authorized (drive w) (accessToken u) = true
  /\ w1 = with_drive w
            (Service.saved_store (dateString now) (GOOGLE_DRIVE_FOLDER_ID env)
               (upload_of req) (drive w)).
Proof.
  intros Hu Hrun.
  destruct (save_in_the_world env plain_folder now req u w w1 t Hu Hrun)
    as [Hauth Hcase].
  split; [exact Hauth | ]. unfold Service.saved_store.
  destruct (named_in (dateString now) (GOOGLE_DRIVE_FOLDER_ID env) (drive w));
    destruct Hcase as [-> _]; reflexivity.
Qed.

(** With an accepted token, a save goes through. *)
Lemma save_goes_through (now : Dayjs.clock) (req : request) (u : user)
  (w : world) :
  req_user req = Some u ->
  Drive.authorized (drive w) (accessToken u) = true ->
  exists t,
    run the_world (post_todos env now req) w
    = (Returned saved,
       with_drive w
         (Service.saved_store (dateString now) (GOOGLE_DRIVE_FOLDER_ID env)
            (upload_of req) (drive w)),
       t).
Proof.
  intros Hu Hauth.
  destruct (save_or_nothing now req w) as [Hs | [H500 _]].
  - destruct (run the_world (post_todos env now req) w) as [[out w1] t] eqn:R.
    cbn [fst] in Hs. subst out.
    destruct (saved_world now req u w w1 t Hu R) as [_ ->]. now exists t.
  - exfalso. revert H500. unfold post_todos. rewrite Hu. cbn.
    fold (query env (dateString now)).
    rewrite (list_in_the_world env plain_folder), Hauth.
    destruct (named_in _ _ _) as [ | f fs] eqn:N; cbn.
    + unfold Drive.create. rewrite Hauth. cbn. discriminate.
    + unfold Drive.update. rewrite Hauth.
      destruct (find_file_in f _ (named_in_store _ _ _ f fs N)) as (g & Hg).
      rewrite Hg. cbn. discriminate.
Qed.

(** **** What a save does to the store *)

Lemma saved_store_tokens (key folder : string) (m : Drive.media)
  (st : Drive.store) :
  Drive.tokens (Service.saved_store key folder m st) = Drive.tokens st.
Proof.
  unfold Service.saved_store. now destruct (named_in key folder st).
Qed.

Lemma named_in_uploaded (n p : string) (i : Drive.file_id) (m : Drive.media)
  (st : Drive.store) :
  map Drive.handle_of
    (named_in n p
       (Drive.mkStore (Drive.upload i m (Drive.contents st)) (Drive.tokens st)))
  = map Drive.handle_of (named_in n p st).
Proof. unfold named_in. cbn [Drive.contents]. apply upload_keeps_listing. Qed.

Lemma saved_store_twice (key folder : string) (m : Drive.media)
  (st : Drive.store) :
  Drive.media_mimeType m = "application/json" ->
  Service.saved_store key folder m (Service.saved_store key folder m st)
  = Service.saved_store key folder m st.
Proof.
  intros Hm. destruct st as [l tokens].
  unfold Service.saved_store at 2 3. cbn [Drive.contents Drive.tokens].
  destruct (named_in key folder (Drive.mkStore l tokens)) as [ | f fs] eqn:N.
  - unfold Service.saved_store. rewrite named_in_created, N.
    cbn [app Drive.contents Drive.tokens Drive.id]. f_equal.
    rewrite upload_past.
    + cbn [Drive.upload Drive.id]. rewrite Nat.eqb_refl.
      cbn [Drive.name Drive.parents]. now rewrite Hm.
    + intros g Hg. pose proof (fresh_id_above l g Hg). lia.
  - unfold Service.saved_store.
    pose proof (named_in_uploaded key folder (Drive.id f) m
                  (Drive.mkStore l tokens)) as H.
    cbn [Drive.contents Drive.tokens] in H. rewrite N in H.
    destruct (named_in key folder
                (Drive.mkStore (Drive.upload (Drive.id f) m l) tokens))
      as [ | f' fs'] eqn:N'; [discriminate H | ].
    assert (Hid : Drive.id f' = Drive.id f)
      by (cbn [map] in H; unfold Drive.handle_of in H; congruence).
    cbn [Drive.contents Drive.tokens].
    rewrite Hid, upload_twice. reflexivity.
Qed.

(** The file a save writes holds the upload afterwards; every other file is
    as before, and so is what is listed for every other name. *)
Lemma saved_store_frame (key folder : string) (m : Drive.media)
  (st : Drive.store) :
  Drive.media_mimeType m = "application/json" ->
  let target := Service.written_id key folder st in
  let st1 := Service.saved_store key folder m st in
  (exists g, Drive.find_file target (Drive.contents st1) = Some g
             /\ Drive.content g = Drive.media_body m
             /\ Drive.mimeType g = "application/json")
  /\ (forall j, j <> target ->
      Drive.find_file j (Drive.contents st1)
      = Drive.find_file j (Drive.contents st))
  /\ (forall n p, n <> key ->
      map Drive.handle_of (named_in n p st1)
      = map Drive.handle_of (named_in n p st)).
Proof.
  intros Hm target st1. subst target st1. destruct st as [l tokens].
  unfold Service.saved_store, Service.written_id.
  pose proof (named_in_store key folder (Drive.mkStore l tokens)) as Hin.
  destruct (named_in key folder (Drive.mkStore l tokens)) as [ | f fs] eqn:N;
    cbn [Drive.contents Drive.tokens].
  - repeat split.
    + eexists. split; [now apply find_file_fresh | split; reflexivity].
    + intros j Hj. now apply find_file_other_last.
    + intros n p Hn. now rewrite named_in_other_created.
  - repeat split.
    + destruct (find_file_in f l (Hin f fs eq_refl)) as (g & Hg).
      rewrite find_upload, Hg. eexists. split; [reflexivity | ].
      split; [reflexivity | exact Hm].
    + intros j Hj. now apply find_upload_other.
    + intros n p _.
      exact (named_in_uploaded n p (Drive.id f) m (Drive.mkStore l tokens)).
Qed.

Lemma saved_store_tidy (key folder : string) (m : Drive.media)
  (st : Drive.store) :
  Service.tidy folder st ->
  Service.tidy folder (Service.saved_store key folder m st).
Proof.
  intros [Hids Hnames]. destruct st as [l tokens].
  unfold Service.saved_store, Service.tidy in *.
  cbn [Drive.contents Drive.tokens] in *.
  destruct (named_in key folder (Drive.mkStore l tokens)) as [ | f fs] eqn:N;
    cbn [Drive.contents Drive.tokens].
  - split.
    + rewrite map_app. apply NoDup_app; [exact Hids | repeat constructor; easy | ].
      cbn [map Drive.id]. intros a Ha [<- | []].
      apply in_map_iff in Ha as (g & Hg & Hin).
      pose proof (fresh_id_above l g Hin). lia.
    + intros n. destruct (String.eqb_spec n key) as [-> | Hn].
      * rewrite named_in_created, N. cbn. lia.
      * rewrite named_in_other_created by exact Hn. apply Hnames.
  - split.
    + now rewrite upload_ids.
    + intros n. rewrite upload_keeps_count. apply Hnames.
Qed.

Lemma with_drive_twice (w : world) (a b : Drive.store) :
  with_drive (with_drive w a) b = with_drive w b.
Proof. reflexivity. Qed.

Lemma authorized_by_tokens (st st' : Drive.store) (token : string) :
  Drive.tokens st' = Drive.tokens st ->
  Drive.authorized st' token = Drive.authorized st token.
Proof. unfold Drive.authorized. now intros ->. Qed.

(** X9: saving the same document again changes nothing.  After a save that
    went through, a second save of an equal body for the same key in the
    same session goes through too and leaves the world, store and all, exactly
    as the first one left it. *)
Theorem saving_again_changes_nothing :
  forall (now later : Dayjs.clock) (first second : request) (u : user)
         (w w1 : world) (t1 : list event),
    req_user first = Some u ->
    req_user second = Some u ->
    dateString later = dateString now ->
    req_body second = req_body first ->
    run the_world (post_todos env now first) w = (Returned saved, w1, t1) ->
    exists t2 : list event,
      run the_world (post_todos env later second) w1 = (Returned saved, w1, t2).
Proof.
  intros now later first second u w w1 t1 H1 H2 Hkey Hbody Hrun.
  destruct (saved_world now first u w w1 t1 H1 Hrun) as [Hauth ->].
  destruct (save_goes_through later second u
              (with_drive w
                 (Service.saved_store (dateString now)
                    (GOOGLE_DRIVE_FOLDER_ID env) (upload_of first) (drive w)))
              H2) as (t2 & R2).
  { cbn [drive with_drive].
    rewrite <- Hauth. apply authorized_by_tokens, saved_store_tokens. }
  exists t2. rewrite R2. f_equal. f_equal.
  rewrite Hkey. unfold upload_of. rewrite Hbody.
  cbn [drive with_drive]. rewrite with_drive_twice.
  fold (upload_of first). now rewrite saved_store_twice.
Qed.

(** X10: a save writes one file and nothing else.  After a save that went
    through, the file written (the first one listed for the key, or the new
    one) holds the document with type [application/json]; every file with
    another identifier is as it was, a listing for any other name gives what
    it gave before, the accepted tokens are the same and no mail was sent. *)
Theorem a_save_writes_one_file :
  forall (now : Dayjs.clock) (req : request) (u : user) (w w1 : world)
         (t : list event),
    req_user req = Some u ->
    run the_world (post_todos env now req) w = (Returned saved, w1, t) ->
    let target :=
      Service.written_id (dateString now) (GOOGLE_DRIVE_FOLDER_ID env)
        (drive w) in
    (exists g : Drive.file,
        Drive.find_file target (Drive.contents (drive w1)) = Some g
        /\ Drive.content g = JSON_stringify (req_body req) 2
        /\ Drive.mimeType g = "application/json")
    /\ (forall j : Drive.file_id,
           j <> target ->
           Drive.find_file j (Drive.contents (drive w1))
           = Drive.find_file j (Drive.contents (drive w)))
    /\ (forall n p : string,
           n <> dateString now ->
           map Drive.handle_of (named_in n p (drive w1))
           = map Drive.handle_of (named_in n p (drive w)))
    /\ Drive.tokens (drive w1) = Drive.tokens (drive w)
    /\ outbox w1 = outbox w.
Proof.
  intros now req u w w1 t Hu Hrun target. subst target.
  destruct (saved_world now req u w w1 t Hu Hrun) as [_ ->].
  cbn [drive with_drive outbox].
  destruct (saved_store_frame (dateString now) (GOOGLE_DRIVE_FOLDER_ID env)
              (upload_of req) (drive w) eq_refl) as (Hg & Hj & Hn).
  repeat split; try assumption.
  apply saved_store_tokens.
Qed.

Lemma serve_keeps_tidy (r : Dayjs.clock * request) (w : world) :
  Service.tidy (GOOGLE_DRIVE_FOLDER_ID env) (drive w) ->
  Service.tidy (GOOGLE_DRIVE_FOLDER_ID env) (drive (Service.serve env r w)).
Proof.
  intros T. destruct r as [now req]. unfold Service.serve. cbn [fst snd].
  unfold route, isAuthenticated, req_isAuthenticated.
  assert (Hpost : Service.tidy (GOOGLE_DRIVE_FOLDER_ID env)
                    (drive (snd (fst (run the_world (post_todos env now req)
                                        w))))).
  { destruct (save_or_nothing now req w) as [Hs | [_ ->]]; [ | exact T].
    destruct (save_needs_a_user now req w Hs) as (u & Hu).
    destruct (run the_world (post_todos env now req) w) as [[out w1] t] eqn:R.
    cbn [fst snd] in *. subst out.
    destruct (saved_world now req u w w1 t Hu R) as [_ ->].
    cbn [drive with_drive]. now apply saved_store_tidy. }
  destruct (req_method req), (req_user req) as [u | ];
    repeat match goal with
           | |- context [if ?b then _ else _] => destruct b
           end;
    cbn [run fst snd];
    rewrite ?(proj1 (fetch_keeps_the_store now req w)),
      ?reminder_keeps_the_store;
    assumption.
Qed.

(** X11: the requests the server answers one after the other keep the store
    in order.  If identifiers are distinct and no two files of the folder
    have the same name, the same holds after any sequence of requests to the
    routes behind [isAuthenticated], by whatever users and at whatever
    times. *)
Theorem requests_keep_the_store_tidy :
  forall (requests : list (Dayjs.clock * request)) (w : world),
    Service.tidy (GOOGLE_DRIVE_FOLDER_ID env) (drive w) ->
    Service.tidy (GOOGLE_DRIVE_FOLDER_ID env)
      (drive (Service.serve_all env requests w)).
Proof.
  unfold Service.serve_all.
  induction requests as [ | r requests IH]; intros w T; [exact T | ].
  cbn [fold_left]. apply IH. now apply serve_keeps_tidy.
Qed.

(** What a fetch answers depends on the accepted tokens, on the listing for
    its key and on the first listed file only. *)
Lemma fetch_agrees (now : Dayjs.clock) (req : request) (w w' : world) :
  Drive.tokens (drive w') = Drive.tokens (drive w) ->
  map Drive.handle_of
    (named_in (dateString now) (GOOGLE_DRIVE_FOLDER_ID env) (drive w'))
  = map Drive.handle_of
      (named_in (dateString now) (GOOGLE_DRIVE_FOLDER_ID env) (drive w)) ->
  (forall h hs,
      map Drive.handle_of
        (named_in (dateString now) (GOOGLE_DRIVE_FOLDER_ID env) (drive w))
      = h :: hs ->
      Drive.find_file (Drive.h_id h) (Drive.contents (drive w'))
      = Drive.find_file (Drive.h_id h) (Drive.contents (drive w))) ->
  fst (fst (run the_world (get_todos env now req) w'))
  = fst (fst (run the_world (get_todos env now req) w))
  /\ snd (run the_world (get_todos env now req) w')
     = snd (run the_world (get_todos env now req) w).
Proof.
  intros Htokens Hlist Hfirst.
  unfold get_todos. destruct (req_user req) as [u | ]; cbn;
    [ | split; reflexivity].
  rewrite !(list_in_the_world env plain_folder).
  rewrite (authorized_by_tokens (drive w) (drive w') _ Htokens).
  destruct (Drive.authorized (drive w) (accessToken u)) eqn:Hauth; cbn;
    [ | split; reflexivity].
  rewrite Hlist.
  destruct (map Drive.handle_of
              (named_in (dateString now) (GOOGLE_DRIVE_FOLDER_ID env)
                 (drive w))) as [ | h hs] eqn:L; cbn;
    [split; reflexivity | ].
  unfold Drive.get.
  rewrite (authorized_by_tokens (drive w) (drive w') _ Htokens), Hauth.
  rewrite (Hfirst h hs eq_refl).
  destruct (Drive.find_file (Drive.h_id h) (Drive.contents (drive w)));
    cbn; split; reflexivity.
Qed.

Lemma other_fetches_agree (now other : Dayjs.clock) (req reader : request)
  (u : user) (w w1 : world) (t : list event) :
  NoDup (map Drive.id (Drive.contents (drive w))) ->
  req_user req = Some u ->
  run the_world (post_todos env now req) w = (Returned saved, w1, t) ->
  dateString other <> dateString now ->
  fst (fst (run the_world (get_todos env other reader) w1))
  = fst (fst (run the_world (get_todos env other reader) w))
  /\ snd (run the_world (get_todos env other reader) w1)
     = snd (run the_world (get_todos env other reader) w).
Proof.
  intros Hids Hu Hrun Hkey.
  destruct (saved_world now req u w w1 t Hu Hrun) as [_ ->].
  destruct (saved_store_frame (dateString now) (GOOGLE_DRIVE_FOLDER_ID env)
              (upload_of req) (drive w) eq_refl) as (_ & Hj & Hn).
  apply fetch_agrees; cbn [drive with_drive].
  - apply saved_store_tokens.
  - now apply Hn.
  - intros h hs L. apply Hj.
    destruct (named_in (dateString other) (GOOGLE_DRIVE_FOLDER_ID env)
                (drive w)) as [ | f fs] eqn:N; [discriminate L | ].
    injection L as <- _. cbn [Drive.handle_of Drive.h_id].
    assert (If : In f (named_in (dateString other)
                         (GOOGLE_DRIVE_FOLDER_ID env) (drive w)))
      by (rewrite N; now left).
    apply named_in_name in If as [Hin Hname].
    unfold Service.written_id.
    destruct (named_in (dateString now) (GOOGLE_DRIVE_FOLDER_ID env) (drive w))
      as [ | f0 fs0] eqn:N0.
    + pose proof (fresh_id_above _ f Hin). lia.
    + assert (I0 : In f0 (named_in (dateString now)
                            (GOOGLE_DRIVE_FOLDER_ID env) (drive w)))
        by (rewrite N0; now left).
      apply named_in_name in I0 as [Hin0 Hname0].
      intros E. apply Hkey. rewrite <- Hname, <- Hname0.
      now rewrite (distinct_ids _ f f0 Hids Hin Hin0 E).
Qed.

(** X12: a save leaves the other days alone.  In a store whose identifiers
    are distinct, after a save that went through, a fetch for a day with
    another key is answered as it was before the save, with the same calls
    and the same answers from the store. *)
Theorem a_save_leaves_other_days_alone :
  forall (now other : Dayjs.clock) (req reader : request) (u : user)
         (w w1 : world) (t : list event),
    NoDup (map Drive.id (Drive.contents (drive w))) ->
    req_user req = Some u ->
    run the_world (post_todos env now req) w = (Returned saved, w1, t) ->
    dateString other <> dateString now ->
    fst (fst (run the_world (get_todos env other reader) w1))
    = fst (fst (run the_world (get_todos env other reader) w))
    /\ snd (run the_world (get_todos env other reader) w1)
       = snd (run the_world (get_todos env other reader) w).
Proof.
  intros now other req reader u w w1 t. apply other_fetches_agree.
Qed.

(** One request either leaves the store as it is or is a save that went
    through. *)
Lemma serve_cases (r : Dayjs.clock * request) (w : world) :
  drive (Service.serve env r w) = drive w
  \/ (req_method (snd r) = POST
      /\ exists u t,
           req_user (snd r) = Some u
           /\ run the_world (post_todos env (fst r) (snd r)) w
              = (Returned saved, Service.serve env r w, t)).
Proof.
  destruct r as [now req]. unfold Service.serve. cbn [fst snd].
  unfold route, isAuthenticated, req_isAuthenticated.
  destruct (req_method req) eqn:M.
  - left. destruct (String.eqb (req_path req) "/api/todos"); [ | reflexivity].
    destruct (req_user req); [ | reflexivity].
    apply fetch_keeps_the_store.
  - destruct (String.eqb (req_path req) "/api/todos").
    + destruct (req_user req) as [u | ] eqn:U; [ | now left].
      destruct (save_or_nothing now req w) as [Hs | [_ Hd]]; [ | now left].
      right. split; [reflexivity | ]. exists u.
      destruct (run the_world (post_todos env now req) w) as [[out w1] t].
      cbn [fst snd] in *. subst out. now exists t.
    + left.
      destruct (String.eqb (req_path req) "/api/send-reminder");
        [ | reflexivity].
      destruct (req_user req); [ | reflexivity].
      apply reminder_keeps_the_store.
Qed.

(** X13: a document outlives the requests for other days.  In a store that
    is in order, whatever requests are served one after the other, by
    whatever users, a fetch for a day is answered afterwards as it would
    have been before them, as long as none of them is a save for the key of
    that day. *)
Theorem a_document_outlives_other_requests :
  forall (now : Dayjs.clock) (reader : request)
         (requests : list (Dayjs.clock * request)) (w : world),
    Service.tidy (GOOGLE_DRIVE_FOLDER_ID env) (drive w) ->
    (forall r, In r requests -> req_method (snd r) = POST ->
               dateString (fst r) <> dateString now) ->
    fst (fst (run the_world (get_todos env now reader)
                (Service.serve_all env requests w)))
    = fst (fst (run the_world (get_todos env now reader) w)).
Proof.
  intros now reader. unfold Service.serve_all.
  induction requests as [ | r requests IH]; intros w T Hother;
    [reflexivity | ].
  cbn [fold_left]. rewrite IH.
  - destruct (serve_cases r w) as [Hd | (M & u & t & Hu & Hrun)].
    + apply fetch_agrees; rewrite Hd; reflexivity.
    + apply (other_fetches_agree (fst r) now (snd r) reader u w _ t);
        try assumption.
      * apply T.
      * intros E. apply (Hother r); [now left | exact M | now symmetry].
  - now apply serve_keeps_tidy.
  - intros r' Hr'. apply Hother. now right.
Qed.

Lemma save_keeps_the_outbox (now : Dayjs.clock) (req : request) (w : world) :
  outbox (snd (fst (run the_world (post_todos env now req) w))) = outbox w.
Proof.
  unfold post_todos. destruct (req_user req) as [u | ]; cbn; [ | reflexivity].
  destruct (Drive.list _ _ _) as [e | [[[ | h hs]]]]; cbn; [reflexivity | | ].
  - destruct (Drive.create _ _ _ _) as [[e | r] st]; reflexivity.
  - destruct (Drive.update _ _ _ _) as [[e | r] st]; reflexivity.
Qed.

(** One request leaves the outbox as it is or adds one mail, to the first
    address of the user of the request. *)
Lemma serve_outbox (r : Dayjs.clock * request) (w : world) :
  outbox (Service.serve env r w) = outbox w
  \/ exists u a rest m,
       req_user (snd r) = Some u
       /\ emails u = a :: rest
       /\ Mail.to m = value a
       /\ outbox (Service.serve env r w) = (outbox w ++ [m])%list.
Proof.
  destruct r as [now req]. unfold Service.serve. cbn [fst snd].
  unfold route, isAuthenticated, req_isAuthenticated.
  destruct (req_method req).
  - left. destruct (String.eqb (req_path req) "/api/todos"); [ | reflexivity].
    destruct (req_user req); [ | reflexivity].
    apply fetch_keeps_the_store.
  - destruct (String.eqb (req_path req) "/api/todos").
    + left. destruct (req_user req); [ | reflexivity].
      apply save_keeps_the_outbox.
    + destruct (String.eqb (req_path req) "/api/send-reminder");
        [ | now left].
      destruct (req_user req) as [u | ] eqn:U; [ | now left].
      unfold post_send_reminder, sendTaskReminder. rewrite U. cbn.
      destruct (emails u) as [ | a rest] eqn:E; cbn; [now left | ].
      destruct (relay_up w); cbn; [ | now left].
      right. exists u, a, rest. eexists.
      repeat split; try reflexivity; exact E.
Qed.

(** X14: mail goes to the one who asked for it only.  Whatever requests are
    served one after the other, the outbox keeps what it held and gains, in
    order, at most one mail for each request, each of them addressed to the
    first address of the user some request of the sequence came from. *)
Theorem mail_goes_to_the_one_who_asked :
  forall (requests : list (Dayjs.clock * request)) (w : world),
    exists sent : list Mail.options,
      outbox (Service.serve_all env requests w) = (outbox w ++ sent)%list
      /\ (List.length sent <= List.length requests)%nat
      /\ Forall
           (fun m =>
              exists r u a rest,
                In r requests
                /\ req_user (snd r) = Some u
                /\ emails u = a :: rest
                /\ Mail.to m = value a)
           sent.
Proof.
  unfold Service.serve_all.
  induction requests as [ | r requests IH]; intros w.
  - exists []. cbn. rewrite app_nil_r. repeat split; [lia | constructor].
  - cbn [fold_left].
    destruct (IH (Service.serve env r w)) as (sent & Hout & Hlen & Hall).
    assert (Hall' : Forall
                      (fun m =>
                         exists r' u a rest,
                           In r' (r :: requests)
                           /\ req_user (snd r') = Some u
                           /\ emails u = a :: rest
                           /\ Mail.to m = value a)
                      sent).
    { eapply Forall_impl; [ | exact Hall].
      intros m (r' & u & a & rest & Hin & H). exists r', u, a, rest.
      split; [now right | exact H]. }
    destruct (serve_outbox r w) as [Hsame | (u & a & rest & m & Hu & He & Hto & Hadd)].
    + exists sent. rewrite Hout, Hsame. repeat split;
        [cbn [List.length]; lia | exact Hall'].
    + exists (m :: sent). rewrite Hout, Hadd, <- app_assoc.
      repeat split; [cbn [List.length]; lia | ].
      constructor; [ | exact Hall'].
      exists r, u, a, rest. repeat split; try assumption. now left.
Qed.

End StoreOverTime.

(** ** The body of a request and the stored text *)

Section TheBody.

Context {W : Type} (o : oracle W).
Variable env : environment.





End TheBody.

(** ** The properties above at sample requests *)

Section MoreChecks.



Lemma store_calls_carry_the_login_token_check :
  Passport.session_user "token-ann" "" Visitor.profile = Some Sample.ann
  /\ Forall
       (fun ev => is_store_call ev = true
                  -> Service.token_of ev = Some "token-ann")
       (snd (run the_world
               (post_todos Sample.env Sample.monday
                  (Sample.post_request Sample.tasks))
               Sample.doubled_world)).
Proof.
  destruct (store_calls_carry_the_login_token the_world Sample.env
              "token-ann" "" Visitor.profile) as (u & Hs & Hu & Hall).
  split; [reflexivity | ].
  apply (Hall Sample.monday (Sample.post_request Sample.tasks)
           Sample.doubled_world).
  rewrite Hu. reflexivity.
Defined.

Lemma query_asks_for_the_key_check :
  Drive.parse_query (query Sample.env (dateString Sample.tuesday))
  = Some (dateString Sample.tuesday, "folder-1").
Proof.
  apply (proj2 (proj2 (proj2 (query_asks_for_the_key Sample.env
                                Sample.tuesday)))).
  reflexivity.
Defined.

Lemma saving_again_changes_nothing_check :
  let w1 :=
    snd (fst (run the_world
                (post_todos Sample.env Sample.monday
                   (Sample.post_request Sample.tasks))
                Visitor.sunday_world)) in
  exists t2 : list event,
    run the_world
      (post_todos Sample.env Sample.monday_late
         (Sample.post_request Sample.tasks))
      w1
    = (Returned saved, w1, t2).
Proof.
  intros w1.
  apply (saving_again_changes_nothing Sample.env eq_refl Sample.monday
           Sample.monday_late (Sample.post_request Sample.tasks)
           (Sample.post_request Sample.tasks) Sample.ann Visitor.sunday_world
           w1
           (snd (run the_world
                   (post_todos Sample.env Sample.monday
                      (Sample.post_request Sample.tasks))
                   Visitor.sunday_world))).
  - reflexivity.
  - reflexivity.
  - vm_compute. reflexivity.
  - reflexivity.
  - vm_compute. reflexivity.
Defined.

Lemma a_save_writes_one_file_check :
  let w1 :=
    snd (fst (run the_world
                (post_todos Sample.env Sample.monday
                   (Sample.post_request Sample.tasks))
                Visitor.sunday_world)) in
  Drive.find_file 7%nat (Drive.contents (drive w1)) = Some Visitor.sunday_file
  /\ (exists g : Drive.file,
         Drive.find_file 8%nat (Drive.contents (drive w1)) = Some g
         /\ Drive.content g = JSON_stringify Sample.tasks 2)
  /\ outbox w1 = [].
Proof.
  intros w1.
  assert (Hrun : run the_world
                   (post_todos Sample.env Sample.monday
                      (Sample.post_request Sample.tasks))
                   Visitor.sunday_world
                 = (Returned saved, w1,
                    snd (run the_world
                           (post_todos Sample.env Sample.monday
                              (Sample.post_request Sample.tasks))
                           Visitor.sunday_world)))
    by (vm_compute; reflexivity).
  destruct (a_save_writes_one_file Sample.env eq_refl Sample.monday
              (Sample.post_request Sample.tasks) Sample.ann
              Visitor.sunday_world w1 _ eq_refl Hrun)
    as ((g & Hg & Hc & _) & Hj & _ & _ & Ho).
  split; [ | split].
  - rewrite (Hj 7%nat); [reflexivity | vm_compute; discriminate].
  - exists g. split; [exact Hg | exact Hc].
  - exact Ho.
Defined.

Lemma requests_keep_the_store_tidy_check :
  Service.tidy "folder-1"
    (drive (Service.serve_all Sample.env
              [(Sample.monday, Sample.post_request Sample.tasks);
               (Sample.monday_late, Sample.post_request (JArr []));
               (Sample.monday, Sample.reminder_request);
               (Sample.tuesday, Sample.post_request Sample.tasks);
               (Sample.tuesday, Sample.get_request)]
              Visitor.sunday_world)).
Proof.
  apply (requests_keep_the_store_tidy Sample.env eq_refl).
  split.
  - repeat constructor. intros [].
  - intros n. unfold named_in, Visitor.sunday_world.
    cbn [drive Drive.contents filter].
    destruct (Drive.matches_query n _ Visitor.sunday_file); cbn; lia.
Defined.

Lemma a_save_leaves_other_days_alone_check :
  let w1 :=
    snd (fst (run the_world
                (post_todos Sample.env Sample.monday
                   (Sample.post_request Sample.tasks))
                Visitor.sunday_world)) in
  fst (fst (run the_world
              (get_todos Sample.env Visitor.sunday Sample.get_request) w1))
  = Returned (res_json (JArr [JStr "rest"])).
Proof.
  intros w1.
  assert (Hrun : run the_world
                   (post_todos Sample.env Sample.monday
                      (Sample.post_request Sample.tasks))
                   Visitor.sunday_world
                 = (Returned saved, w1,
                    snd (run the_world
                           (post_todos Sample.env Sample.monday
                              (Sample.post_request Sample.tasks))
                           Visitor.sunday_world)))
    by (vm_compute; reflexivity).
  assert (Hids : NoDup (map Drive.id
                          (Drive.contents (drive Visitor.sunday_world))))
    by (repeat constructor; intros []).
  assert (Hkey : dateString Visitor.sunday <> dateString Sample.monday)
    by (vm_compute; discriminate).
  rewrite (proj1 (a_save_leaves_other_days_alone Sample.env eq_refl
                    Sample.monday Visitor.sunday
                    (Sample.post_request Sample.tasks) Sample.get_request
                    Sample.ann Visitor.sunday_world w1 _ Hids eq_refl Hrun
                    Hkey)).
  vm_compute. reflexivity.
Defined.

Lemma a_document_outlives_other_requests_check :
  fst (fst (run the_world
              (get_todos Sample.env Visitor.sunday Sample.get_request)
              (Service.serve_all Sample.env
                 [(Sample.monday, Sample.post_request Sample.tasks);
                  (Sample.monday, Sample.reminder_request);
                  (Sample.tuesday, Sample.post_request (JArr []));
                  (Visitor.sunday, Sample.get_request)]
                 Visitor.sunday_world)))
  = Returned (res_json (JArr [JStr "rest"])).
Proof.
  rewrite (a_document_outlives_other_requests Sample.env eq_refl
             Visitor.sunday Sample.get_request).
  - vm_compute. reflexivity.
  - split.
    + repeat constructor. intros [].
    + intros n. unfold named_in, Visitor.sunday_world.
      cbn [drive Drive.contents filter].
      destruct (Drive.matches_query n _ Visitor.sunday_file); cbn; lia.
  - intros r [<- | [<- | [<- | [<- | []]]]] M;
      try discriminate M; vm_compute; discriminate.
Defined.


End MoreChecks.
